(** * CelebA.py: fine-tuning and evaluation script, shallow embedding

    The script [CelebA.py] wires a pretrained VGG-16 (batch-norm variant)
    to the CelebA attribute data set.  Everything numerical is delegated
    to PyTorch, torchvision and scikit-learn; the script's own logic is
    the indexing of the label tensor, the logging discipline of the
    training loop, the bookkeeping of the evaluation loop and the choice
    of what [main] runs.  The embedding keeps that logic executable and
    takes the numerical library as an interface ([TorchLib]).

    Effects are recorded as a trace of events; an exception ends the run
    and keeps what was done before it.  Moving tensors between devices
    changes no value and is not modelled, nor is the progress bar that
    [tqdm] draws on the error stream. *)

From Stdlib Require Import String DecimalString DecimalFacts DecimalNat.
From Stdlib Require Import ZArith QArith Bool Arith Lia List Permutation.
Import ListNotations.
Close Scope Q_scope.
Open Scope string_scope.
Open Scope list_scope.
Open Scope nat_scope.

Set Implicit Arguments.

(** ** Exceptions and results *)

(** The Python exceptions the script itself can provoke. *)
Inductive exn : Type :=
| IndexError          (* tensor or Sequential index out of range *)
| AttributeError      (* [.in_features] on a module that has none *)
| ValueError          (* [.item()] on a tensor without exactly one element *)
| ZeroDivisionError   (* [correct / total] with [total = 0] *)
| RuntimeError.       (* raised inside the numerical library *)

Inductive result (A : Type) : Type :=
| Ok (a : A)
| Raise (e : exn).
Arguments Raise {A} e.

Definition is_ok {A} (r : result A) : bool :=
  match r with Ok _ => true | Raise _ => false end.

Definition rbind {A B} (r : result A) (k : A -> result B) : result B :=
  match r with Ok a => k a | Raise e => Raise e end.

(** [mapR f l]: apply a fallible [f] to every element, first failure wins. *)
Fixpoint mapR {A B} (f : A -> result B) (l : list A) : result (list B) :=
  match l with
  | [] => Ok []
  | x :: xs => rbind (f x) (fun y => rbind (mapR f xs) (fun ys => Ok (y :: ys)))
  end.

(** ** Integer tensors

    Label tensors hold 64-bit signed integers.  A one-dimensional tensor is
    a list of its elements, a two-dimensional one the list of its rows. *)

Definition wrap64 (z : Z) : Z := ((z + 2 ^ 63) mod 2 ^ 64 - 2 ^ 63)%Z.

(** [(cov_attr + 1) // 2], element by element: 64-bit addition followed by
    floor division ([Z.div] rounds towards minus infinity for a positive
    divisor, as Python's [//] does). *)
Definition remap_cov (v : Z) : Z := (wrap64 (v + 1) / 2)%Z.

(** [labels[:, k]]: column [k] of a two-dimensional tensor. *)
Definition select_col (k : nat) (labels : list (list Z)) : result (list Z) :=
  mapR (fun row => match nth_error row k with
                   | Some v => Ok v
                   | None => Raise IndexError
                   end) labels.

(** [t.item()]: the value of a tensor with exactly one element. *)
Definition item {A} (t : list A) : result A :=
  match t with
  | [x] => Ok x
  | _ => Raise ValueError
  end.

(** [a == b] on one-dimensional tensors, with PyTorch's broadcasting of a
    one-element operand; other shape mismatches raise. *)
Definition tensor_eq (a b : list Z) : result (list bool) :=
  if length a =? length b then Ok (map (fun p => Z.eqb (fst p) (snd p)) (combine a b))
  else match a, b with
       | [x], _ => Ok (map (fun y => Z.eqb x y) b)
       | _, [y] => Ok (map (fun x => Z.eqb x y) a)
       | _, _ => Raise RuntimeError
       end.

(** [t.sum().item()] on a boolean tensor. *)
Definition tensor_sum (t : list bool) : nat := count_occ bool_dec t true.

(** Number of positions at which two lists of labels agree. *)
Fixpoint count_matches (y_true y_pred : list Z) : nat :=
  match y_true, y_pred with
  | t :: ts, p :: ps => (if Z.eqb t p then 1 else 0) + count_matches ts ps
  | _, _ => 0
  end.

(** ** Formatting *)

(** [str(n)] / ['{}'.format(n)] for a non-negative integer. *)
Definition str (n : nat) : string := NilZero.string_of_uint (Nat.to_uint n).

Definition experiment_name : string := "vgg16_bn_8".

(** ** Batching ([torch.utils.data.DataLoader]) *)

(** Consecutive chunks of [size] elements, the last one possibly shorter
    ([drop_last] keeps its default [False]).  [fuel] bounds the number of
    chunks; [length l] is always enough. *)
Fixpoint chunk_fuel {A} (fuel size : nat) (l : list A) : list (list A) :=
  match fuel with
  | 0 => []
  | S fuel' =>
      match l with
      | [] => []
      | _ :: _ => firstn size l :: chunk_fuel fuel' size (skipn size l)
      end
  end.

Definition chunk {A} (size : nat) (l : list A) : list (list A) :=
  match size with
  | 0 => []
  | S _ => chunk_fuel (length l) size l
  end.

(** ** The numerical library as an interface *)

(** The carrier types of the numerical library. *)
Class TorchTypes : Type := {
  image : Type;          (* a preprocessed image tensor *)
  float : Type;          (* a Python float *)
  weights : Type;        (* weight and bias of one linear layer *)
  other_module : Type;   (* a module without [in_features]: ReLU, Dropout, ... *)
  backbone : Type;       (* [model.features] and [model.avgpool] with their weights *)
  outputs : Type;        (* the result of a forward pass, with its autograd graph *)
  loss_t : Type;         (* a scalar loss tensor *)
  grads : Type;          (* gradients of all parameters *)
  opt_state : Type;      (* Adam's moments and step count, with its learning rate *)
  rng : Type;            (* state of the global random number generator *)
}.

Section Data.
Context {T : TorchTypes}.

(** A member of [model.classifier]. *)
Inductive layer : Type :=
| Linear (in_features out_features : nat) (w : weights)
| Other (m : other_module).

(** The network: the convolutional part is opaque, the classifier is the
    [nn.Sequential] the script indexes, [training] is the mode flag that
    [model.eval()] clears. *)
Record Model : Type := {
  features : backbone;
  classifier : list layer;
  training : bool;
}.

(** [model.state_dict()]: every parameter, without the mode flag. *)
Definition state_dict (m : Model) : backbone * list layer :=
  (features m, classifier m).

(** One element of a data set: the image and its attribute vector. *)
Definition sample : Type := image * list Z.

(** One collated batch. *)
Record batch : Type := {
  images : list image;
  labels : list (list Z);
}.

Definition collate (ss : list sample) : batch :=
  {| images := map fst ss; labels := map snd ss |}.

Record DataLoader : Type := {
  dataset : list sample;
  batch_size : nat;
  shuffle : bool;
}.

(** [len(loader)]: the number of batches of one pass. *)
Definition len (dl : DataLoader) : nat :=
  (length (dataset dl) + batch_size dl - 1) / batch_size dl.

(** What the script does to the outside world, in order. *)
Inductive event : Type :=
| EPrint (line : string)                  (* [print(line)] on the console *)
| EOpen (path : string)                   (* [open(path, 'a')] *)
| EAppend (path line : string)            (* [print(line, file=f)] *)
| ESavefig (path title : string) (steps : list nat) (losses : list float)
| ECheckpoint (path : string) (sd : backbone * list layer)   (* [torch.save] *)
| EForward (training_mode grad_mode : bool)   (* one call [model(images)] *)
| EOptimStep.                             (* one call [optimizer.step()] *)

(** The state the script threads implicitly. *)
Record world : Type := {
  trace : list event;
  grad_enabled : bool;
  rng_state : rng;
}.

End Data.

(** The operations of the numerical library. *)
Class TorchLib {T : TorchTypes} : Type := {
  (* [nn.Linear(i, o)]: a freshly initialised layer *)
  linear_init : rng -> nat -> nat -> weights * rng;
  (* [model(images)]; dropout draws random numbers in training mode *)
  forward : Model -> list image -> rng -> result outputs * rng;
  (* [outputs.data]: one row of logits per image *)
  data : outputs -> list (list float);
  float_ltb : float -> float -> bool;
  (* [nn.CrossEntropyLoss()] *)
  CrossEntropyLoss : outputs -> list Z -> result loss_t;
  loss_item : loss_t -> float;
  backward : loss_t -> grads;
  (* [torch.optim.Adam(model.parameters(), lr)] and its [step] *)
  Adam : Model -> float -> opt_state;
  adam_step : opt_state -> grads -> Model -> Model * opt_state;
  (* [sklearn.metrics.f1_score] *)
  f1_score : list Z -> list Z -> result float;
  (* [torch.randperm(n)] as drawn by the shuffling sampler *)
  randperm : rng -> nat -> list nat * rng;
  float_of_Q : Q -> float;
  fmt : float -> string;       (* ['{}'.format(x)] *)
  fmt4 : float -> string;      (* ['{:.4f}'.format(x)] *)
  (* [vgg16_bn(pretrained=True)], from [model/vgg_16.py] *)
  vgg16_bn : Model;
  (* [datasets.CelebA(root='./data', split=..., transform=...)]: the
     samples of a split, or the exception raised when the data under
     [./data] is absent or unreadable *)
  CelebA : string -> result (list sample);
}.

(** ** The monad of the script: state that survives an exception *)

Section Monad.
Context {T : TorchTypes}.

(** A computation transforms the world and either returns or raises; what
    it did before raising stays done. *)
Definition M (A : Type) : Type := world -> result A * world.

Definition ret {A} (a : A) : M A := fun w => (Ok a, w).

Definition bind {A B} (m : M A) (k : A -> M B) : M B :=
  fun w => match m w with
           | (Ok a, w') => k a w'
           | (Raise e, w') => (Raise e, w')
           end.

Definition lift {A} (r : result A) : M A := fun w => (r, w).

Definition set_trace (t : list event) (w : world) : world :=
  {| trace := t; grad_enabled := grad_enabled w; rng_state := rng_state w |}.

Definition set_grad (g : bool) (w : world) : world :=
  {| trace := trace w; grad_enabled := g; rng_state := rng_state w |}.

Definition set_rng (r : rng) (w : world) : world :=
  {| trace := trace w; grad_enabled := grad_enabled w; rng_state := r |}.

Definition emit (e : event) : M unit :=
  fun w => (Ok tt, set_trace (trace w ++ [e]) w).

(** [with torch.no_grad(): body]: gradient tracking is switched off for
    the body and restored afterwards, also when the body raises. *)
Definition no_grad {A} (body : M A) : M A :=
  fun w => let (r, w') := body (set_grad false w) in
           (r, set_grad (grad_enabled w) w').

End Monad.

Notation "x <- m ;; k" := (bind m (fun x => k))
  (at level 61, m at next level, right associativity).
Notation "' pat <- m ;; k" := (bind m (fun x => match x with pat => k end))
  (at level 61, pat pattern, m at next level, right associativity).
Notation "m ;;; k" := (bind m (fun _ => k))
  (at level 61, right associativity).

(** ** The script *)

Section Program.
Context {T : TorchTypes} {L : TorchLib}.

(** *** Calls into the library *)

(** [model(images)]. *)
Definition call_model (model : Model) (imgs : list image) : M outputs :=
  fun w => let (r, g) := forward model imgs (rng_state w) in
           (r, set_rng g (set_trace (trace w ++ [EForward (training model) (grad_enabled w)]) w)).

(** [loss.backward()]: without gradient tracking the loss has no graph and
    the call raises. *)
Definition loss_backward (loss : loss_t) : M grads :=
  fun w => if grad_enabled w then (Ok (backward loss), w) else (Raise RuntimeError, w).

(** [optimizer.step()]: the only place where parameters are updated. *)
Definition optimizer_step (optimizer : opt_state) (g : grads) (model : Model)
  : M (Model * opt_state) :=
  emit EOptimStep ;;; ret (adam_step optimizer g model).

(** [nn.Linear(i, o)]. *)
Definition new_Linear (i o : nat) : M layer :=
  fun w => let (wt, g) := linear_init (rng_state w) i o in
           (Ok (Linear i o wt), set_rng g w).

(** [torch.max(rows, 1)], second component: per row, the index of the
    first maximal entry. *)
Fixpoint argmax_from (best_i : nat) (best : float) (i : nat) (row : list float) : nat :=
  match row with
  | [] => best_i
  | x :: xs => if float_ltb best x then argmax_from i x (S i) xs
               else argmax_from best_i best (S i) xs
  end.

Definition argmax (row : list float) : result Z :=
  match row with
  | [] => Raise IndexError
  | x :: xs => Ok (Z.of_nat (argmax_from 0 x 1 xs))
  end.

Definition max_dim1 (rows : list (list float)) : result (list Z) := mapR argmax rows.

(** [a / b] on Python integers ([from __future__ import division]); the
    exact quotient, rounded to a float by [float_of_Q] where it is used. *)
Definition true_div (a b : nat) : result Q :=
  if b =? 0 then Raise ZeroDivisionError
  else Ok (Qmake (Z.of_nat a) (Pos.of_nat b)).

(** *** [DataLoader] *)

(** [DataLoader(dataset=ds, batch_size=bs, shuffle=sh)].  A shuffling
    loader builds a random sampler, which refuses an empty data set; the
    batch sampler built next refuses a batch size of 0. *)
Definition new_DataLoader (ds : list sample) (bs : nat) (sh : bool) : result DataLoader :=
  if sh && (length ds =? 0) then Raise ValueError
  else if bs =? 0 then Raise ValueError
  else Ok {| dataset := ds; batch_size := bs; shuffle := sh |}.

Definition gather (ds : list sample) (perm : list nat) : list sample :=
  flat_map (fun i => match nth_error ds i with Some s => [s] | None => [] end) perm.

(** One pass over a loader: the batches in the order they are delivered.
    A shuffling loader draws a fresh permutation of the indices. *)
Definition iter_loader (dl : DataLoader) : M (list batch) :=
  fun w =>
    if shuffle dl then
      let (perm, g) := randperm (rng_state w) (length (dataset dl)) in
      (Ok (map collate (chunk (batch_size dl) (gather (dataset dl) perm))), set_rng g w)
    else (Ok (map collate (chunk (batch_size dl) (dataset dl))), w).

(** *** [load_data] *)

Definition load_data (batch_size : nat)
  : M (DataLoader * DataLoader * DataLoader) :=
  train_dataset <- lift (CelebA "train") ;;
  val_dataset <- lift (CelebA "valid") ;;
  test_dataset <- lift (CelebA "test") ;;
  train_loader <- lift (new_DataLoader train_dataset batch_size true) ;;
  val_loader <- lift (new_DataLoader val_dataset batch_size false) ;;
  test_loader <- lift (new_DataLoader test_dataset batch_size false) ;;
  ret (train_loader, val_loader, test_loader).

(** *** [initialize_model] *)

(** [seq[k]] on an [nn.Sequential]. *)
Definition get_layer (c : list layer) (k : nat) : result layer :=
  match nth_error c k with
  | Some l => Ok l
  | None => Raise IndexError
  end.

(** [l.in_features]. *)
Definition in_features_of (l : layer) : result nat :=
  match l with
  | Linear i _ _ => Ok i
  | Other _ => Raise AttributeError
  end.

Fixpoint replace_nth {A} (k : nat) (x : A) (l : list A) : list A :=
  match l, k with
  | [], _ => []
  | _ :: t, 0 => x :: t
  | h :: t, S k' => h :: replace_nth k' x t
  end.

(** [seq[k] = l]. *)
Definition set_layer (c : list layer) (k : nat) (l : layer) : result (list layer) :=
  if k <? length c then Ok (replace_nth k l c) else Raise IndexError.

Definition initialize_model (model : Model) (learning_rate : float) (num_classes : nat)
  : M (Model * (outputs -> list Z -> result loss_t) * opt_state) :=
  old <- lift (get_layer (classifier model) 6) ;;
  num_ftrs <- lift (in_features_of old) ;;
  fresh <- new_Linear num_ftrs num_classes ;;
  c <- lift (set_layer (classifier model) 6 fresh) ;;
  (* model.to(device) moves the tensors and leaves their values alone *)
  let model := {| features := features model; classifier := c; training := training model |} in
  let criterion := CrossEntropyLoss in
  let optimizer := Adam model learning_rate in
  ret (model, criterion, optimizer).

(** *** [make_plots] *)

Definition make_plots (step_hist : list nat) (loss_hist : list float) (epoch : nat) : M unit :=
  emit (ESavefig experiment_name ("epoch" ++ str (epoch + 1)) step_hist loss_hist).

(** *** [train] *)

Definition log_file : string := experiment_name ++ ".txt".

(** ['Epoch: [{}/{}], Step[{}/{}], Loss:{:.4f}'.format(...)]. *)
Definition progress_line (epoch1 num_epochs step n_batches : nat) (loss : float) : string :=
  "Epoch: [" ++ str epoch1 ++ "/" ++ str num_epochs ++ "], Step["
  ++ str step ++ "/" ++ str n_batches ++ "], Loss:" ++ fmt4 loss.

(** What one epoch carries from batch to batch. *)
Record train_state : Type := {
  ts_model : Model;
  ts_optimizer : opt_state;
  loss_hist : list float;
  step_hist : list nat;
}.

(** The body of the inner loop, for batch number [i] (counted from 0). *)
Definition train_batch (criterion : outputs -> list Z -> result loss_t)
    (epoch num_epochs n_batches : nat) (i : nat) (b : batch) (st : train_state)
  : M train_state :=
  label <- lift (select_col 2 (labels b)) ;;
  cov_attr <- lift (select_col 20 (labels b)) ;;
  let cov_attr := map remap_cov cov_attr in
  (* images.to(device), label.to(device): values unchanged *)
  outs <- call_model (ts_model st) (images b) ;;
  loss <- lift (criterion outs label) ;;
  (* optimizer.zero_grad(); loss.backward(); optimizer.step() *)
  g <- loss_backward loss ;;
  ' (model', optimizer') <- optimizer_step (ts_optimizer st) g (ts_model st) ;;
  if (i + 1) mod 100 =? 0 then
    emit (EPrint (progress_line (epoch + 1) num_epochs (i + 1) n_batches (loss_item loss))) ;;;
    emit (EOpen log_file) ;;;
    emit (EAppend log_file
            (progress_line (epoch + 1) num_epochs (i + 1) n_batches (loss_item loss))) ;;;
    ret {| ts_model := model'; ts_optimizer := optimizer';
           loss_hist := loss_hist st ++ [loss_item loss];
           step_hist := step_hist st ++ [i + 1] |}
  else
    ret {| ts_model := model'; ts_optimizer := optimizer';
           loss_hist := loss_hist st; step_hist := step_hist st |}.

(** [for i, (images, labels) in enumerate(train_loader)], from index [i]. *)
Fixpoint train_batches (criterion : outputs -> list Z -> result loss_t)
    (epoch num_epochs n_batches : nat) (i : nat) (bs : list batch) (st : train_state)
  : M train_state :=
  match bs with
  | [] => ret st
  | b :: rest =>
      st' <- train_batch criterion epoch num_epochs n_batches i b st ;;
      train_batches criterion epoch num_epochs n_batches (S i) rest st'
  end.

(** The body of the outer loop. *)
Definition train_epoch (train_loader : DataLoader)
    (criterion : outputs -> list Z -> result loss_t) (num_epochs epoch : nat)
    (mo : Model * opt_state) : M (Model * opt_state) :=
  let st := {| ts_model := fst mo; ts_optimizer := snd mo;
               loss_hist := []; step_hist := [] |} in
  batches <- iter_loader train_loader ;;
  st' <- train_batches criterion epoch num_epochs (len train_loader) 0 batches st ;;
  make_plots (step_hist st') (loss_hist st') epoch ;;;
  ret (ts_model st', ts_optimizer st').

(** [for epoch in range(num_epochs)], the epochs listed in [epochs]. *)
Fixpoint train_epochs (train_loader : DataLoader)
    (criterion : outputs -> list Z -> result loss_t) (num_epochs : nat)
    (epochs : list nat) (mo : Model * opt_state) : M (Model * opt_state) :=
  match epochs with
  | [] => ret mo
  | epoch :: rest =>
      mo' <- train_epoch train_loader criterion num_epochs epoch mo ;;
      train_epochs train_loader criterion num_epochs rest mo'
  end.

(** [train] returns nothing in Python and leaves the model and the
    optimizer updated in place; here it returns them. *)
Definition train (train_loader : DataLoader) (model : Model)
    (criterion : outputs -> list Z -> result loss_t) (optimizer : opt_state)
    (num_epochs : nat) : M (Model * opt_state) :=
  mo <- train_epochs train_loader criterion num_epochs (seq 0 num_epochs) (model, optimizer) ;;
  emit (ECheckpoint (experiment_name ++ ".ckpt") (state_dict (fst mo))) ;;;
  ret mo.

(** *** [evaluate] *)

(** The accumulators of the evaluation loop. *)
Record eval_state : Type := {
  correct : nat;
  total : nat;
  y_true : list Z;
  y_pred : list Z;
}.

Definition eval_init : eval_state :=
  {| correct := 0; total := 0; y_true := []; y_pred := [] |}.

(** [model.eval()]. *)
Definition eval_mode (model : Model) : Model :=
  {| features := features model; classifier := classifier model; training := false |}.

(** The body of the evaluation loop. *)
Definition evaluate_batch (model : Model) (b : batch) (st : eval_state) : M eval_state :=
  label <- lift (select_col 2 (labels b)) ;;
  cov_attr <- lift (select_col 20 (labels b)) ;;
  let cov_attr := map remap_cov cov_attr in
  (* images.to(device), label.to(device): values unchanged *)
  outs <- call_model model (images b) ;;
  predicted <- lift (max_dim1 (data outs)) ;;
  yt <- lift (item label) ;;
  yp <- lift (item predicted) ;;
  eqs <- lift (tensor_eq label predicted) ;;
  ret {| correct := correct st + tensor_sum eqs;
         total := total st + length label;
         y_true := y_true st ++ [yt];
         y_pred := y_pred st ++ [yp] |}.

Fixpoint evaluate_batches (model : Model) (bs : list batch) (st : eval_state)
  : M eval_state :=
  match bs with
  | [] => ret st
  | b :: rest =>
      st' <- evaluate_batch model b st ;;
      evaluate_batches model rest st'
  end.

(** ['F1 Score: {}'.format(x)] and ['Validation accuracy: {}'.format(x)]. *)
Definition f1_line (x : float) : string := "F1 Score: " ++ fmt x.
Definition accuracy_line (x : float) : string := "Validation accuracy: " ++ fmt x.

(** The four [print] calls that close [evaluate]; the third one, inside
    the [with open(...)] block, has no [file=f]. *)
Definition report (st : eval_state) : M unit :=
  f1 <- lift (f1_score (y_true st) (y_pred st)) ;;
  emit (EPrint (f1_line f1)) ;;;
  acc <- lift (true_div (correct st) (total st)) ;;
  emit (EPrint (accuracy_line (float_of_Q acc))) ;;;
  emit (EOpen log_file) ;;;
  f1' <- lift (f1_score (y_true st) (y_pred st)) ;;
  emit (EPrint (f1_line f1')) ;;;
  acc' <- lift (true_div (correct st) (total st)) ;;
  emit (EAppend log_file (accuracy_line (float_of_Q acc'))).

(** [evaluate] returns nothing in Python; here it returns the model it
    leaves behind. *)
Definition evaluate (val_loader : DataLoader) (model : Model) : M Model :=
  let model := eval_mode model in
  no_grad (
    batches <- iter_loader val_loader ;;
    st <- evaluate_batches model batches eval_init ;;
    report st ;;;
    ret model).

(** *** [main] *)

Definition newline : string := String (Ascii.ascii_of_nat 10) EmptyString.

Definition main : M unit :=
  let num_epochs := 1 in
  let num_classes := 2 in
  let batch_size := 8 in
  let learning_rate := float_of_Q (Qmake 1 1000) in
  let model_name := vgg16_bn in
  emit (EPrint "Loading data...") ;;;
  ' (train_loader, val_loader, test_loader) <- load_data batch_size ;;
  emit (EPrint "Initializing model...") ;;;
  ' (model, criterion, optimizer) <- initialize_model model_name learning_rate num_classes ;;
  (* train(train_loader, model, criterion, optimizer, num_epochs) is commented out *)
  emit (EPrint ("Start evaluating... " ++ newline)) ;;;
  _ <- evaluate val_loader model ;;
  ret tt.

End Program.

(** ** Reading a trace *)

Section Views.
Context {T : TorchTypes}.

(** The lines printed on the console. *)
Definition console (evs : list event) : list string :=
  flat_map (fun e => match e with EPrint l => [l] | _ => [] end) evs.

(** The lines appended to the file [path]. *)
Definition appended (path : string) (evs : list event) : list string :=
  flat_map (fun e => match e with
                     | EAppend p l => if String.eqb p path then [l] else []
                     | _ => []
                     end) evs.

Definition is_checkpoint (e : event) : bool :=
  match e with ECheckpoint _ _ => true | _ => false end.

Definition is_savefig (e : event) : bool :=
  match e with ESavefig _ _ _ _ => true | _ => false end.

Definition is_optim_step (e : event) : bool :=
  match e with EOptimStep => true | _ => false end.

(** An event that only the training loop produces. *)
Definition is_training_event (e : event) : bool :=
  is_checkpoint e || is_savefig e || is_optim_step e.

(** A forward pass made in inference mode without gradient tracking, or
    an event that is no forward pass at all. *)
Definition inference_only (e : event) : bool :=
  match e with
  | EForward tr g => negb tr && negb g
  | _ => true
  end.

(** What the evaluation loop may do: forward passes in inference mode
    without gradient tracking, prints and log lines, and nothing that
    belongs to training. *)
Definition eval_event (e : event) : bool :=
  inference_only e && negb (is_training_event e).

(** Anything but writing a checkpoint. *)
Definition not_checkpoint (e : event) : bool := negb (is_checkpoint e).

Definition is_forward (e : event) : bool :=
  match e with EForward _ _ => true | _ => false end.

(** The plots saved, as (path, title) pairs. *)
Definition plots (evs : list event) : list (string * string) :=
  flat_map (fun e => match e with ESavefig p t _ _ => [(p, t)] | _ => [] end) evs.

(** The log file holds what the console shows. *)
Definition mirrored (evs : list event) : Prop :=
  appended (experiment_name ++ ".txt") evs = console evs.

End Views.

(** ** Vocabulary of the statements *)

Section Vocabulary.
Context {T : TorchTypes} {L : TorchLib}.

(** [emits g Q m]: started with gradient tracking set to [g], the
    computation [m] ends with it set to [g], and every event it adds to
    the trace satisfies [Q], whether it returns or raises. *)
Definition emits {A} (g : bool) (Q : event -> bool) (m : M A) : Prop :=
  forall w, grad_enabled w = g ->
    grad_enabled (snd (m w)) = g /\
    exists evs, trace (snd (m w)) = trace w ++ evs /\ forallb Q evs = true.

(** [sample_pair model b (yt, yp)]: the batch [b] is one sample, [yt] is
    its attractiveness label (column 2) and [yp] the index of the largest
    logit that [model] produces for it. *)
Definition sample_pair (model : Model) (b : batch) (p : Z * Z) : Prop :=
  exists row r outs r' logits,
    labels b = [row] /\ nth_error row 2 = Some (fst p) /\
    forward model (images b) r = (Ok outs, r') /\
    data outs = [logits] /\ argmax logits = Ok (snd p).

(** The events of the closing report, in order. *)
Definition report_events (f1 : float) (acc : Q) : list event :=
  [EPrint (f1_line f1);
   EPrint (accuracy_line (float_of_Q acc));
   EOpen log_file;
   EPrint (f1_line f1);
   EAppend log_file (accuracy_line (float_of_Q acc))].

(** [batch_loss criterion b l]: [l] is the value of a loss that
    [criterion] computes from a forward pass over the images of [b] and
    the attractiveness labels of [b]. *)
Definition batch_loss (criterion : outputs -> list Z -> result loss_t)
    (b : batch) (l : float) : Prop :=
  exists label m r outs r' t,
    select_col 2 (labels b) = Ok label /\
    forward m (images b) r = (Ok outs, r') /\
    criterion outs label = Ok t /\
    l = loss_item t.

(** The (step, loss) pairs to be logged, given the losses of the batches
    numbered [i], [i+1], ...: those whose step number, the batch number
    plus one, is a multiple of 100. *)
Definition logged (i : nat) (losses : list float) : list (nat * float) :=
  filter (fun p => fst p mod 100 =? 0) (combine (seq (i + 1) (length losses)) losses).

Definition progress_lines (epoch1 num_epochs n_batches : nat) (rec : list (nat * float))
  : list string :=
  map (fun p => progress_line epoch1 num_epochs (fst p) n_batches (snd p)) rec.

(** What the inner loop may emit. *)
Definition batch_event (e : event) : bool :=
  negb (is_checkpoint e) && negb (is_savefig e).

(** Two attribute vectors of the same length that agree everywhere but,
    possibly, at index 20. *)
Definition same_but_cov (r1 r2 : list Z) : Prop :=
  length r1 = length r2 /\ forall k, k <> 20 -> nth_error r1 k = nth_error r2 k.

Definition sample_variant (s1 s2 : sample) : Prop :=
  fst s1 = fst s2 /\ same_but_cov (snd s1) (snd s2).

Definition batch_variant (b1 b2 : batch) : Prop :=
  images b1 = images b2 /\ Forall2 same_but_cov (labels b1) (labels b2).

(** Two loaders that differ in the covariate column of their data only. *)
Definition cov_variant (dl1 dl2 : DataLoader) : Prop :=
  batch_size dl1 = batch_size dl2 /\
  shuffle dl1 = shuffle dl2 /\
  Forall2 sample_variant (dataset dl1) (dataset dl2).

(** The validation loader that [main] builds over the validation split. *)
Definition main_val_loader (val_dataset : list sample) : DataLoader :=
  {| dataset := val_dataset; batch_size := 8; shuffle := false |}.

(** [main] with [load_data] spelled out: the three splits are read, the
    shuffling training loader is built and never used, the pretrained
    backbone goes through [initialize_model] and from there straight into
    [evaluate] over the validation loader. *)
Definition main_normal_form : M unit :=
  emit (EPrint "Loading data...") ;;;
  train_dataset <- lift (CelebA "train") ;;
  val_dataset <- lift (CelebA "valid") ;;
  test_dataset <- lift (CelebA "test") ;;
  _ <- lift (new_DataLoader train_dataset 8 true) ;;
  emit (EPrint "Initializing model...") ;;;
  r <- initialize_model vgg16_bn (float_of_Q (Qmake 1 1000)) 2 ;;
  emit (EPrint ("Start evaluating... " ++ newline)) ;;;
  _ <- evaluate (main_val_loader val_dataset) (fst (fst r)) ;;
  ret tt.

(** The samples a batch was collated from. *)
Definition batch_samples (b : batch) : list sample := combine (images b) (labels b).

(** The batches are non-empty, hold at most [bs] samples and as many
    images as label rows, and there are [n] of them. *)
Definition well_batched (bs n : nat) (batches : list batch) : Prop :=
  Forall (fun b => 1 <= length (labels b) <= bs /\
                   length (images b) = length (labels b)) batches /\
  length batches = n.

(** Whatever the world, a pass over [dl] leaves it as it is and delivers
    exactly [samples], in that order, well batched. *)
Definition delivers_in_order (dl : DataLoader) (samples : list sample) : Prop :=
  forall w, exists batches,
    iter_loader dl w = (Ok batches, w) /\
    concat (map batch_samples batches) = samples /\
    well_batched (batch_size dl) (len dl) batches.

(** [produces P m]: whatever the world, the events that [m] adds to the
    trace, whether it returns or raises, satisfy [P]. *)
Definition produces {A} (P : list event -> Prop) (m : M A) : Prop :=
  forall w, exists evs, trace (snd (m w)) = trace w ++ evs /\ P evs.

(** The model that [initialize_model] builds around a fresh final layer. *)
Definition with_head (model : Model) (head : layer) : Model :=
  {| features := features model;
     classifier := replace_nth 6 head (classifier model);
     training := training model |}.

End Vocabulary.

(** ** A small concrete library, for running the script *)

Module Toy.

#[local] Instance types : TorchTypes := {|
  image := nat;
  float := Z;
  weights := nat;
  other_module := unit;
  backbone := nat;
  outputs := list (list Z);
  loss_t := Z;
  grads := Z;
  opt_state := nat;
  rng := nat;
|}.

Definition toy_row (label cov : Z) : list Z :=
  [0; 0; label]%Z ++ repeat 0%Z 17 ++ [cov].

Definition toy_forward (m : @Model types) (imgs : list nat) (r : nat)
  : result (list (list Z)) * nat :=
  (Ok (map (fun x => [Z.of_nat (@features types m); Z.of_nat x]) imgs), r).

Definition toy_celeba (valid : list (nat * list Z)) (split : string) : list (nat * list Z) :=
  if String.eqb split "valid" then valid
  else [(0, toy_row 0 1); (1, toy_row 1 (-1)); (2, toy_row 1 1)].

Definition toy_vgg : @Model types :=
  {| features := 1;
     classifier := [Linear 8 8 0; Other tt; Other tt; Linear 8 8 1;
                    Other tt; Other tt; Linear 8 1000 2];
     training := true |}.

(** The library, over a chosen validation split. *)
Definition lib (valid : list (nat * list Z)) : @TorchLib types := {|
  linear_init := fun r i o => (i + o + r, S r);
  forward := toy_forward;
  data := fun o => o;
  float_ltb := Z.ltb;
  CrossEntropyLoss := fun o l => Ok (Z.of_nat (length o) + 7)%Z;
  loss_item := fun l => l;
  backward := fun l => l;
  Adam := fun _ _ => 0;
  adam_step := fun o g m =>
    ({| features := S (@features types m); classifier := @classifier types m;
        training := @training types m |}, S o);
  f1_score := fun yt yp => Ok (Z.of_nat (count_matches yt yp));
  randperm := fun r n => (rev (seq 0 n), S r);
  float_of_Q := fun q => (Qnum q * 100 / Zpos (Qden q))%Z;
  fmt := fun z => str (Z.to_nat z);
  fmt4 := fun z => str (Z.to_nat z);
  vgg16_bn := toy_vgg;
  CelebA := fun split => Ok (toy_celeba valid split);
|}.

Definition w0 : @world types := {| trace := []; grad_enabled := true; rng_state := 0 |}.

(** Three validation samples, delivered one per batch. *)
Definition three : list (nat * list Z) :=
  [(0, toy_row 0 1); (5, toy_row 1 (-1)); (7, toy_row 0 1)].

Definition val3 : @DataLoader types :=
  {| dataset := three; batch_size := 1; shuffle := false |}.

(** The same samples with the covariate column flipped. *)
Definition val3' : @DataLoader types :=
  {| dataset := [(0, toy_row 0 (-1)); (5, toy_row 1 1); (7, toy_row 0 (-1))];
     batch_size := 1; shuffle := false |}.

(** Two validation samples in one batch. *)
Definition val_pair : @DataLoader types :=
  {| dataset := [(0, toy_row 0 1); (5, toy_row 1 (-1))]; batch_size := 2; shuffle := false |}.

(** A training split of 250 samples, one per batch, shuffled. *)
Definition train250 : @DataLoader types :=
  {| dataset := map (fun n => (n, toy_row (Z.of_nat (n mod 2)) 1)) (seq 0 250);
     batch_size := 1; shuffle := true |}.

(** The library over the three-sample validation split. *)
Definition lib3 : @TorchLib types := lib three.

Definition train250' : @DataLoader types :=
  {| dataset := map (fun n => (n, toy_row (Z.of_nat (n mod 2)) (-1))) (seq 0 250);
     batch_size := 1; shuffle := true |}.

(** Five training samples in shuffled batches of two. *)
Definition train5 : @DataLoader types :=
  {| dataset := map (fun n => (n, toy_row (Z.of_nat (n mod 2)) 1)) (seq 0 5);
     batch_size := 2; shuffle := true |}.

(** A loader without data. *)
Definition val_empty : @DataLoader types :=
  {| dataset := []; batch_size := 4; shuffle := false |}.

(** A classifier that is too short, and one whose seventh entry is not a
    linear layer. *)
Definition toy_short : @Model types :=
  {| features := 1; classifier := [Linear 8 8 0; Other tt; Linear 8 2 1]; training := true |}.

Definition toy_relu_head : @Model types :=
  {| features := 1;
     classifier := [Linear 8 8 0; Other tt; Other tt; Linear 8 8 1;
                    Other tt; Other tt; Other tt; Linear 8 2 2];
     training := true |}.

(** A batch of two samples with three attributes each. *)
Definition narrow_batch : @batch types :=
  {| images := [0; 1]; labels := [[0; 0; 1]%Z; [0; 0; 0]%Z] |}.

End Toy.

(** ** Properties *)

(** *** Lists and results *)

Lemma rbind_ok {A B} (r : result A) (k : A -> result B) (b : B) :
  rbind r k = Ok b -> exists a, r = Ok a /\ k a = Ok b.
Proof. destruct r as [a|e]; simpl; intros H; [eauto | discriminate]. Qed.

Lemma mapR_length {A B} (f : A -> result B) (l : list A) (l' : list B) :
  mapR f l = Ok l' -> length l' = length l.
Proof.
  revert l'. induction l as [|x xs IH]; simpl; intros l' H.
  - injection H as <-. reflexivity.
  - apply rbind_ok in H as (y & _ & H). apply rbind_ok in H as (ys & Hys & H).
    injection H as <-. simpl. f_equal. auto.
Qed.

Lemma select_col_length (k : nat) (labels : list (list Z)) (col : list Z) :
  select_col k labels = Ok col -> length col = length labels.
Proof. apply mapR_length. Qed.

Lemma item_ok {A} (t : list A) (x : A) : item t = Ok x -> t = [x].
Proof. destruct t as [|y [|z t]]; simpl; intros H; try discriminate. now injection H as <-. Qed.

Lemma replace_nth_split {A} (k : nat) (x : A) (l : list A) :
  k < length l -> replace_nth k x l = firstn k l ++ x :: skipn (S k) l.
Proof.
  revert k. induction l as [|h t IH]; intros [|k] Hk; simpl in *; try lia.
  - reflexivity.
  - f_equal. apply IH. lia.
Qed.

Lemma replace_nth_length {A} (k : nat) (x : A) (l : list A) :
  length (replace_nth k x l) = length l.
Proof. revert k. induction l as [|h t IH]; intros [|k]; simpl; auto. Qed.

Lemma nth_error_replace_nth_other {A} (k j : nat) (x : A) (l : list A) :
  j <> k -> nth_error (replace_nth k x l) j = nth_error l j.
Proof.
  revert k j. induction l as [|h t IH]; intros [|k] [|j] Hjk; simpl; auto;
    solve [congruence | apply IH; congruence].
Qed.

Lemma nth_error_replace_nth_same {A} (k : nat) (x : A) (l : list A) :
  k < length l -> nth_error (replace_nth k x l) k = Some x.
Proof.
  revert k. induction l as [|h t IH]; intros [|k] Hk; simpl in *; try lia; auto.
  apply IH. lia.
Qed.

(** *** The covariate remapping *)

Lemma wrap64_small (z : Z) : (- 2 ^ 63 <= z < 2 ^ 63)%Z -> wrap64 z = z.
Proof. intros H. unfold wrap64. rewrite Z.mod_small; lia. Qed.

(** C2.  On a covariate that is -1 or 1, the remapping [(v + 1) // 2] that
    the training loop and the evaluation loop both apply yields exactly 0
    for -1 and exactly 1 for 1. *)
Theorem remap_cov_exact (v : Z) :
  v = (-1)%Z \/ v = 1%Z ->
  (v = (-1)%Z /\ remap_cov v = 0%Z) \/ (v = 1%Z /\ remap_cov v = 1%Z).
Proof.
  intros [-> | ->]; [left | right]; split; reflexivity.
Qed.

Lemma remap_cov_exact_witness :
  (((-1) = -1 /\ remap_cov (-1) = 0) \/ ((-1) = 1 /\ remap_cov (-1) = 1))%Z /\
  ((1 = -1 /\ remap_cov 1 = 0) \/ (1 = 1 /\ remap_cov 1 = 1))%Z.
Proof.
  split; apply remap_cov_exact; [left | right]; reflexivity.
Defined.

(** The same on a whole column, as both loops compute it. *)
Lemma remap_cov_column (cov_attr : list Z) :
  Forall (fun v => v = (-1)%Z \/ v = 1%Z) cov_attr ->
  map remap_cov cov_attr = map (fun v => if Z.eqb v 1 then 1%Z else 0%Z) cov_attr.
Proof.
  induction 1 as [|v l Hv _ IH]; simpl; [reflexivity|].
  rewrite IH. destruct Hv as [-> | ->]; reflexivity.
Qed.

(** Without overflow the remapping is the plain floor division. *)
Lemma remap_cov_floor (v : Z) :
  (- 2 ^ 63 <= v + 1 < 2 ^ 63)%Z -> remap_cov v = ((v + 1) / 2)%Z.
Proof. intros H. unfold remap_cov. now rewrite wrap64_small. Qed.

(** *** Decimal rendering *)

(** [str] renders different numbers differently. *)
Lemma str_inj (a b : nat) : str a = str b -> a = b.
Proof.
  unfold str. intros H.
  assert (Hnn : forall n, Nat.to_uint n <> Decimal.Nil).
  { intros n Hn. apply (DecimalFacts.unorm_nonnil (Nat.to_uint n)).
    rewrite <- DecimalNat.Unsigned.to_of, DecimalNat.Unsigned.of_to. exact Hn. }
  apply (f_equal NilZero.uint_of_string) in H.
  rewrite !NilZero.usu in H by apply Hnn.
  injection H as H. now apply DecimalNat.Unsigned.to_uint_inj.
Qed.

Section Proofs.
Context {T : TorchTypes} {L : TorchLib}.

(** *** Running the monad *)

Lemma bind_ok {A B} (m : M A) (k : A -> M B) (w : world) (b : B) (w' : world) :
  bind m k w = (Ok b, w') ->
  exists a w1, m w = (Ok a, w1) /\ k a w1 = (Ok b, w').
Proof.
  unfold bind. destruct (m w) as [[a|e] w1]; intros H; [eauto | discriminate].
Qed.

Lemma bind_run_ok {A B} (m : M A) (k : A -> M B) (w : world) (a : A) (w1 : world) :
  m w = (Ok a, w1) -> bind m k w = k a w1.
Proof. unfold bind. now intros ->. Qed.

Lemma bind_run_raise {A B} (m : M A) (k : A -> M B) (w : world) (e : exn) (w1 : world) :
  m w = (Raise e, w1) -> bind m k w = (Raise e, w1).
Proof. unfold bind. now intros ->. Qed.

Lemma lift_ok {A} (r : result A) (w : world) (a : A) (w' : world) :
  lift r w = (Ok a, w') -> r = Ok a /\ w' = w.
Proof. unfold lift. intros H. injection H as -> ->. auto. Qed.

Lemma emit_ok (e : event) (w : world) (u : unit) (w' : world) :
  emit e w = (Ok u, w') -> w' = set_trace (trace w ++ [e]) w.
Proof. unfold emit. intros H. now injection H as _ <-. Qed.

(** Inversion of a successful run, one statement at a time. *)
Ltac step_ok H a Ha :=
  let w1 := fresh "w" in
  apply bind_ok in H as (a & w1 & Ha & H);
  first [ apply lift_ok in Ha as [Ha ->]
        | apply emit_ok in Ha as ->
        | idtac ].

(** *** What a computation may emit *)

Lemma emits_ret {A} g Q (a : A) : emits g Q (ret a).
Proof. intros w Hg. split; [exact Hg|]. exists []. simpl. now rewrite app_nil_r. Qed.

Lemma emits_lift {A} g Q (r : result A) : emits g Q (lift r).
Proof. intros w Hg. split; [exact Hg|]. exists []. simpl. now rewrite app_nil_r. Qed.

Lemma emits_emit g (Q : event -> bool) (e : event) : Q e = true -> emits g Q (emit e).
Proof.
  intros He w Hg. split; [exact Hg|]. exists [e]. simpl. now rewrite He.
Qed.

Lemma emits_bind {A B} g Q (m : M A) (k : A -> M B) :
  emits g Q m -> (forall a, emits g Q (k a)) -> emits g Q (bind m k).
Proof.
  intros Hm Hk w Hg. unfold bind.
  destruct (Hm w Hg) as (Hg1 & evs1 & Ht1 & HQ1).
  destruct (m w) as [[a|e] w1]; simpl in *.
  - destruct (Hk a w1 Hg1) as (Hg2 & evs2 & Ht2 & HQ2).
    split; [exact Hg2|]. exists (evs1 ++ evs2).
    rewrite Ht2, Ht1, app_assoc, forallb_app, HQ1, HQ2. auto.
  - split; [exact Hg1|]. exists evs1. auto.
Qed.

Lemma emits_call_model g (Q : event -> bool) (model : Model) (imgs : list image) :
  Q (EForward (training model) g) = true -> emits g Q (call_model model imgs).
Proof.
  intros He w Hg. unfold call_model.
  destruct (forward model imgs (rng_state w)) as [r g']. simpl.
  split; [exact Hg|]. exists [EForward (training model) g]. simpl.
  rewrite Hg, He. auto.
Qed.

Lemma emits_loss_backward g Q (loss : loss_t) : emits g Q (loss_backward loss).
Proof.
  intros w Hg. unfold loss_backward. destruct (grad_enabled w) eqn:E; simpl;
    (split; [congruence|]); exists []; simpl; now rewrite app_nil_r.
Qed.

Lemma emits_new_Linear g Q (i o : nat) : emits g Q (new_Linear i o).
Proof.
  intros w Hg. unfold new_Linear. destruct (linear_init (rng_state w) i o) as [wt r].
  simpl. split; [exact Hg|]. exists []. now rewrite app_nil_r.
Qed.

Lemma emits_iter_loader g Q (dl : DataLoader) : emits g Q (iter_loader dl).
Proof.
  intros w Hg. unfold iter_loader. destruct (shuffle dl).
  - destruct (randperm (rng_state w) (length (dataset dl))) as [perm r]. simpl.
    split; [exact Hg|]. exists []. now rewrite app_nil_r.
  - simpl. split; [exact Hg|]. exists []. now rewrite app_nil_r.
Qed.

(** Whatever the surrounding mode, the body of [no_grad] runs without
    gradient tracking and the surrounding mode is restored. *)
Lemma emits_no_grad {A} g Q (body : M A) :
  emits false Q body -> emits g Q (no_grad body).
Proof.
  intros Hb w Hg. unfold no_grad.
  destruct (Hb (set_grad false w) eq_refl) as (_ & evs & Ht & HQ).
  destruct (body (set_grad false w)) as [r w1]. simpl in *.
  split; [exact Hg|]. exists evs. auto.
Qed.

Lemma emits_weaken {A} g (Q Q' : event -> bool) (m : M A) :
  (forall e, Q e = true -> Q' e = true) -> emits g Q m -> emits g Q' m.
Proof.
  intros HQ Hm w Hg. destruct (Hm w Hg) as (Hg' & evs & Ht & Hall).
  split; [exact Hg'|]. exists evs. split; [exact Ht|].
  rewrite forallb_forall in *. auto.
Qed.

(** *** [initialize_model] *)

(** C4.  When [model.classifier[6]] is a linear layer, [initialize_model]
    succeeds and the model it returns differs from the one it was given
    in that layer only: the new layer reads its input width from the old
    one and has the configured number of classes as output width; every
    other classifier layer, the convolutional part and the mode flag are
    the ones given, and nothing is printed or written. *)
Theorem initialize_model_replaces_final_layer
    (model : Model) (learning_rate : float) (num_classes : nat) (w : world)
    (i o : nat) (wt : weights) :
  nth_error (classifier model) 6 = Some (Linear i o wt) ->
  exists model' optimizer w',
    initialize_model model learning_rate num_classes w
      = (Ok (model', CrossEntropyLoss, optimizer), w') /\
    nth_error (classifier model') 6
      = Some (Linear i num_classes (fst (linear_init (rng_state w) i num_classes))) /\
    (forall k, k <> 6 -> nth_error (classifier model') k = nth_error (classifier model) k) /\
    classifier model'
      = firstn 6 (classifier model)
        ++ Linear i num_classes (fst (linear_init (rng_state w) i num_classes))
        :: skipn 7 (classifier model) /\
    features model' = features model /\
    training model' = training model /\
    trace w' = trace w.
Proof.
  intros H6.
  assert (Hlen : 6 < length (classifier model)).
  { apply nth_error_Some. rewrite H6. discriminate. }
  unfold initialize_model, bind, lift, get_layer, new_Linear, set_layer, ret.
  rewrite H6. simpl in_features_of. cbv iota beta.
  destruct (linear_init (rng_state w) i num_classes) as [wt' r] eqn:Hinit.
  apply Nat.ltb_lt in Hlen as Hlt. rewrite Hlt. cbv iota beta.
  eexists _, _, _. split; [reflexivity|].
  cbn [classifier features training fst trace set_rng].
  repeat split.
  - now apply nth_error_replace_nth_same.
  - intros k Hk. now apply nth_error_replace_nth_other.
  - now apply replace_nth_split.
Qed.

(** Outside its precondition [initialize_model] raises and returns no
    model. *)
Lemma initialize_model_raises (model : Model) (lr : float) (nc : nat) (w : world) :
  (forall i o wt, nth_error (classifier model) 6 <> Some (Linear i o wt)) ->
  is_ok (fst (initialize_model model lr nc w)) = false.
Proof.
  intros H. unfold initialize_model, bind, lift, get_layer.
  destruct (nth_error (classifier model) 6) as [[i o wt|m]|]; simpl; auto.
  now destruct (H i o wt).
Qed.

(** *** [evaluate] *)

Lemma tensor_eq_single (a b : Z) : tensor_eq [a] [b] = Ok [Z.eqb a b].
Proof. reflexivity. Qed.

Lemma select_col_single (k : nat) (row : list Z) (v : Z) :
  select_col k [row] = Ok [v] -> nth_error row k = Some v.
Proof.
  unfold select_col. simpl. destruct (nth_error row k); simpl; intros H; now inversion H.
Qed.

Lemma max_dim1_single (rows : list (list float)) (yp : Z) :
  max_dim1 rows = Ok [yp] -> exists logits, rows = [logits] /\ argmax logits = Ok yp.
Proof.
  intros H. pose proof (mapR_length _ _ H) as Hlen.
  destruct rows as [|logits [|? ?]]; simpl in Hlen; try discriminate.
  exists logits. split; [reflexivity|].
  unfold max_dim1 in H. simpl in H. destruct (argmax logits); simpl in H; now inversion H.
Qed.

Lemma evaluate_batch_ok (model : Model) (b : batch) (st st' : eval_state) (w w' : world) :
  evaluate_batch model b st w = (Ok st', w') ->
  exists row yt outs logits yp,
    labels b = [row] /\ nth_error row 2 = Some yt /\
    forward model (images b) (rng_state w) = (Ok outs, rng_state w') /\
    data outs = [logits] /\ argmax logits = Ok yp /\
    st' = {| correct := correct st + (if Z.eqb yt yp then 1 else 0);
             total := total st + 1;
             y_true := y_true st ++ [yt];
             y_pred := y_pred st ++ [yp] |} /\
    trace w' = trace w ++ [EForward (training model) (grad_enabled w)] /\
    grad_enabled w' = grad_enabled w.
Proof.
  unfold evaluate_batch. intros H.
  step_ok H label Hlabel. step_ok H cov Hcov. step_ok H outs Hfwd.
  step_ok H predicted Hpred. step_ok H yt Hyt. step_ok H yp Hyp.
  step_ok H eqs Heqs.
  unfold ret in H. injection H as <- <-.
  apply item_ok in Hyt, Hyp. subst label predicted.
  pose proof (select_col_length _ _ Hlabel) as Hlen.
  destruct (labels b) as [|row [|? ?]] eqn:Hrows; simpl in Hlen; try discriminate.
  apply select_col_single in Hlabel.
  destruct (max_dim1_single _ Hpred) as (logits & Hdata & Harg).
  rewrite tensor_eq_single in Heqs. injection Heqs as <-.
  unfold call_model in Hfwd.
  destruct (forward model (images b) (rng_state w)) as [r g] eqn:Hf.
  injection Hfwd as -> <-.
  exists row, yt, outs, logits, yp. simpl.
  repeat split; auto.
  unfold tensor_sum. simpl. destruct (Z.eqb yt yp); reflexivity.
Qed.

(** A batch that does not hold exactly one sample makes the loop body
    raise: [label.item()] needs a one-element tensor. *)
Lemma evaluate_batch_raises (model : Model) (b : batch) (st : eval_state) (w : world) :
  length (labels b) <> 1 ->
  is_ok (fst (evaluate_batch model b st w)) = false.
Proof.
  intros Hlen.
  destruct (evaluate_batch model b st w) as [[st'|e] w'] eqn:H; [|reflexivity].
  apply evaluate_batch_ok in H as (row & ? & ? & ? & ? & Hrow & _).
  rewrite Hrow in Hlen. now destruct Hlen.
Qed.

Lemma count_matches_le (a b : list Z) : count_matches a b <= length a.
Proof.
  revert b. induction a as [|x a IH]; intros [|y b]; simpl; try lia.
  specialize (IH b). destruct (Z.eqb x y); lia.
Qed.

Lemma sample_pairs_single (model : Model) (bs : list batch) (pairs : list (Z * Z)) :
  Forall2 (sample_pair model) bs pairs ->
  Forall (fun b => length (labels b) = 1) bs /\
  length (concat (map labels bs)) = length pairs.
Proof.
  induction 1 as [|b p bs ps (row & _ & _ & _ & _ & Hrow & _) _ [IH1 IH2]]; simpl.
  - auto.
  - split.
    + constructor; [now rewrite Hrow | exact IH1].
    + rewrite Hrow. simpl. now rewrite IH2.
Qed.

(** The loop of [evaluate], when it completes: one pair per batch, each
    batch one sample, the counters in step with the lists. *)
Lemma evaluate_batches_ok (model : Model) (bs : list batch) :
  forall (st st' : eval_state) (w w' : world),
  evaluate_batches model bs st w = (Ok st', w') ->
  exists pairs,
    Forall2 (sample_pair model) bs pairs /\
    y_true st' = y_true st ++ map fst pairs /\
    y_pred st' = y_pred st ++ map snd pairs /\
    total st' = total st + length pairs /\
    correct st' = correct st + count_matches (map fst pairs) (map snd pairs) /\
    trace w' = trace w ++ repeat (EForward (training model) (grad_enabled w)) (length bs) /\
    grad_enabled w' = grad_enabled w.
Proof.
  induction bs as [|b bs IH]; intros st st' w w' H; simpl in H.
  - unfold ret in H. injection H as <- <-. exists []. simpl.
    rewrite !app_nil_r. repeat split; auto.
  - apply bind_ok in H as (st1 & w1 & Hb & H).
    apply evaluate_batch_ok in Hb
      as (row & yt & outs & logits & yp & Hrow & Hyt & Hfwd & Hdata & Harg & -> & Htr & Hg).
    apply IH in H as (pairs & Hpairs & Hyt' & Hyp' & Htot & Hcor & Htr' & Hg').
    exists ((yt, yp) :: pairs). simpl in *.
    repeat split.
    + constructor; [|exact Hpairs].
      exists row, (rng_state w), outs, (rng_state w1), logits. auto.
    + rewrite Hyt', <- app_assoc. reflexivity.
    + rewrite Hyp', <- app_assoc. reflexivity.
    + lia.
    + lia.
    + rewrite Htr', Htr, Hg, <- app_assoc. reflexivity.
    + congruence.
Qed.

Lemma true_div_ok (a b : nat) (q : Q) :
  true_div a b = Ok q -> 0 < b /\ q = Qmake (Z.of_nat a) (Pos.of_nat b).
Proof.
  unfold true_div. destruct (Nat.eqb_spec b 0); intros H; [discriminate|].
  injection H as <-. split; [lia | reflexivity].
Qed.

Lemma report_ok (st : eval_state) (w w' : world) (u : unit) :
  report st w = (Ok u, w') ->
  exists f1,
    f1_score (y_true st) (y_pred st) = Ok f1 /\
    0 < total st /\
    w' = set_trace
           (trace w ++ report_events f1 (Qmake (Z.of_nat (correct st)) (Pos.of_nat (total st))))
           w.
Proof.
  unfold report. intros H.
  step_ok H f1 Hf1. step_ok H u1 Hu1. step_ok H acc Hacc.
  step_ok H u2 Hu2. step_ok H u3 Hu3. step_ok H f1' Hf1'.
  step_ok H u4 Hu4. step_ok H acc' Hacc'.
  apply emit_ok in H. cbn [set_trace trace grad_enabled rng_state] in H.
  rewrite Hf1 in Hf1'. injection Hf1' as <-.
  rewrite Hacc in Hacc'. injection Hacc' as <-.
  apply true_div_ok in Hacc as [Hpos ->].
  exists f1. repeat split; auto.
  subst w'. unfold set_trace, report_events. cbn [trace grad_enabled rng_state].
  rewrite <- !app_assoc. reflexivity.
Qed.

Lemma iter_loader_ok (dl : DataLoader) (w : world) :
  exists batches w1,
    iter_loader dl w = (Ok batches, w1) /\
    trace w1 = trace w /\ grad_enabled w1 = grad_enabled w.
Proof.
  unfold iter_loader. destruct (shuffle dl).
  - destruct (randperm (rng_state w) (length (dataset dl))) as [perm g].
    eexists _, _. split; [reflexivity|]. auto.
  - eexists _, _. split; [reflexivity|]. auto.
Qed.

(** A completed run of [evaluate], spelled out. *)
Lemma evaluate_ok (val_loader : DataLoader) (model model' : Model) (w w' : world) :
  evaluate val_loader model w = (Ok model', w') ->
  exists batches pairs f1,
    fst (iter_loader val_loader (set_grad false w)) = Ok batches /\
    Forall2 (sample_pair (eval_mode model)) batches pairs /\
    f1_score (map fst pairs) (map snd pairs) = Ok f1 /\
    0 < length pairs /\
    model' = eval_mode model /\
    grad_enabled w' = grad_enabled w /\
    trace w' = trace w
      ++ repeat (EForward false false) (length batches)
      ++ report_events f1
           (Qmake (Z.of_nat (count_matches (map fst pairs) (map snd pairs)))
                  (Pos.of_nat (length pairs))).
Proof.
  unfold evaluate, no_grad. intros H.
  destruct (bind _ _ (set_grad false w)) as [r w2] eqn:Hbody.
  injection H as -> <-.
  destruct (iter_loader_ok val_loader (set_grad false w)) as (batches & w1 & Hit & Ht1 & Hg1).
  apply bind_ok in Hbody as (batches' & w1' & Hit' & Hbody).
  rewrite Hit in Hit'. injection Hit' as <- <-.
  apply bind_ok in Hbody as (st & w3 & Hloop & Hbody).
  apply bind_ok in Hbody as (u & w4 & Hrep & Hbody).
  unfold ret in Hbody. injection Hbody as <- <-.
  apply evaluate_batches_ok in Hloop
    as (pairs & Hpairs & Hyt & Hyp & Htot & Hcor & Htr & Hg).
  apply report_ok in Hrep as (f1 & Hf1 & Hpos & ->).
  simpl in Hyt, Hyp, Htot, Hcor. rewrite Hyt, Hyp in Hf1. rewrite Htot in Hpos.
  exists batches, pairs, f1. rewrite Hit.
  repeat split; auto.
  cbn [set_grad set_trace trace grad_enabled rng_state].
  rewrite Htr, Ht1, Hg1, Hcor, Htot. cbn [set_grad trace grad_enabled eval_mode training].
  rewrite <- app_assoc. reflexivity.
Qed.

Lemma console_app (a b : list event) : console (a ++ b) = console a ++ console b.
Proof. apply flat_map_app. Qed.

Lemma appended_app (path : string) (a b : list event) :
  appended path (a ++ b) = appended path a ++ appended path b.
Proof. apply flat_map_app. Qed.

Lemma console_forwards (tr g : bool) (n : nat) : console (repeat (EForward tr g) n) = [].
Proof. induction n; simpl; auto. Qed.

Lemma appended_forwards (path : string) (tr g : bool) (n : nat) :
  appended path (repeat (EForward tr g) n) = [].
Proof. induction n; simpl; auto. Qed.

Lemma console_report (f1 : float) (acc : Q) :
  console (report_events f1 acc)
  = [f1_line f1; accuracy_line (float_of_Q acc); f1_line f1].
Proof. reflexivity. Qed.

Lemma appended_report (f1 : float) (acc : Q) :
  appended log_file (report_events f1 acc)
  = [accuracy_line (float_of_Q acc)].
Proof. reflexivity. Qed.

Lemma ratio_in_unit_interval (a b : nat) :
  a <= b -> 0 < b ->
  (0 <= Qmake (Z.of_nat a) (Pos.of_nat b) <= 1)%Q.
Proof.
  intros Hab Hb. unfold Qle. simpl.
  assert (Hpos : Zpos (Pos.of_nat b) = Z.of_nat b).
  { rewrite <- positive_nat_Z, Nat2Pos.id; [reflexivity | lia]. }
  rewrite Hpos. lia.
Qed.

(** X17.  When [evaluate] completes, the line it prints and appends to
    the log file is "Validation accuracy: " followed by the formatted
    quotient of two natural numbers: the number of processed samples
    whose label equals the prediction made for them, and the number of
    processed samples, which is positive; the quotient lies between 0 and
    1.  (The quotient is exact here; Python rounds it to a float,
    [float_of_Q].) *)
Theorem evaluate_accuracy
    (val_loader : DataLoader) (model model' : Model) (w w' : world) :
  evaluate val_loader model w = (Ok model', w') ->
  exists batches pairs evs,
    fst (iter_loader val_loader (set_grad false w)) = Ok batches /\
    Forall2 (sample_pair (eval_mode model)) batches pairs /\
    let hits := count_matches (map fst pairs) (map snd pairs) in
    let samples := length (concat (map labels batches)) in
    let accuracy := Qmake (Z.of_nat hits) (Pos.of_nat samples) in
    let line := ("Validation accuracy: " ++ fmt (float_of_Q accuracy))%string in
    samples = length pairs /\
    trace w' = trace w ++ evs /\
    In line (console evs) /\
    appended (experiment_name ++ ".txt") evs = [line] /\
    hits <= samples /\ 0 < samples /\
    (0 <= accuracy <= 1)%Q.
Proof.
  intros H.
  apply evaluate_ok in H as (batches & pairs & f1 & Hit & Hpairs & _ & Hpos & _ & _ & Htr).
  destruct (sample_pairs_single Hpairs) as [_ Hlen].
  assert (Hhits : count_matches (map fst pairs) (map snd pairs) <= length pairs).
  { etransitivity; [apply count_matches_le|]. now rewrite length_map. }
  eexists batches, pairs, _. cbv zeta. rewrite Hlen.
  repeat split; try eassumption; try lia.
  - rewrite console_app, console_forwards, console_report. simpl. auto.
  - rewrite appended_app, appended_forwards. reflexivity.
  - now apply ratio_in_unit_interval.
  - now apply ratio_in_unit_interval.
Qed.

(** An empty validation split makes [evaluate] raise before any accuracy
    is reported. *)
Lemma evaluate_empty_raises (val_loader : DataLoader) (model : Model) (w : world) :
  fst (iter_loader val_loader (set_grad false w)) = Ok [] ->
  is_ok (fst (evaluate val_loader model w)) = false.
Proof.
  intros Hit.
  destruct (evaluate val_loader model w) as [[model'|e] w'] eqn:H; [|reflexivity].
  apply evaluate_ok in H as (batches & pairs & f1 & Hit' & Hpairs & _ & Hpos & _).
  rewrite Hit in Hit'. injection Hit' as <-. inversion Hpairs; subst. simpl in Hpos. lia.
Qed.

(** C1.  When [evaluate] completes, the console receives the F1 line, the
    accuracy line and the F1 line once more, while the log file receives
    the accuracy line alone: the F1 score is not appended to it. *)
Theorem evaluate_log_lacks_f1
    (val_loader : DataLoader) (model model' : Model) (w w' : world) :
  evaluate val_loader model w = (Ok model', w') ->
  exists evs f1 acc,
    trace w' = trace w ++ evs /\
    console evs = [f1_line f1; accuracy_line acc; f1_line f1] /\
    appended log_file evs = [accuracy_line acc] /\
    ~ In (f1_line f1) (appended log_file evs).
Proof.
  intros H.
  apply evaluate_ok in H as (batches & pairs & f1 & _ & _ & _ & _ & _ & _ & Htr).
  eexists _, f1, _. split; [exact Htr|].
  rewrite console_app, appended_app, console_forwards, appended_forwards,
    console_report, appended_report.
  repeat split. simpl. intros [Heq | []]. discriminate Heq.
Qed.

(** [evaluate] completes only if every batch is a single sample. *)
Lemma evaluate_ok_single (val_loader : DataLoader) (model model' : Model) (w w' : world)
    (batches : list batch) :
  evaluate val_loader model w = (Ok model', w') ->
  fst (iter_loader val_loader (set_grad false w)) = Ok batches ->
  Forall (fun b => length (labels b) = 1) batches.
Proof.
  intros H Hit.
  apply evaluate_ok in H as (batches' & pairs & f1 & Hit' & Hpairs & _).
  rewrite Hit in Hit'. injection Hit' as <-.
  now destruct (sample_pairs_single Hpairs).
Qed.

(** C5.  A validation batch that holds more or fewer than one sample
    makes [evaluate] raise: the loop appends [label.item()] and
    [predicted.item()], which exist for one-element tensors only. *)
Theorem evaluate_raises_on_batch
    (val_loader : DataLoader) (model : Model) (w : world) (batches : list batch) :
  fst (iter_loader val_loader (set_grad false w)) = Ok batches ->
  Exists (fun b => length (labels b) <> 1) batches ->
  is_ok (fst (evaluate val_loader model w)) = false.
Proof.
  intros Hit Hex.
  destruct (evaluate val_loader model w) as [[model'|e] w'] eqn:H; [|reflexivity].
  assert (Hall : Forall (fun b => length (labels b) = 1) batches)
    by (eapply evaluate_ok_single; eassumption).
  apply Exists_exists in Hex as (b & Hin & Hb).
  rewrite Forall_forall in Hall. now destruct Hb; apply Hall.
Qed.

Lemma forwards_silent (path : string) (evs : list event) :
  forallb is_forward evs = true -> console evs = [] /\ appended path evs = [].
Proof.
  induction evs as [|e evs IH]; simpl; [auto|].
  intros [He Hall]%andb_prop. destruct (IH Hall) as [IH1 IH2].
  destruct e; try discriminate He. simpl. auto.
Qed.

Lemma emits_forwards_evaluate_batches g (model : Model) (bs : list batch) :
  forall st, emits g is_forward (evaluate_batches model bs st).
Proof.
  induction bs as [|b bs IH]; intros st; simpl.
  - apply emits_ret.
  - apply emits_bind; [|intros st'; apply IH].
    unfold evaluate_batch.
    repeat first [ apply emits_ret | apply emits_lift
                 | apply emits_call_model; reflexivity
                 | apply emits_bind; [|intros ?] ].
Qed.

(** C3.  A validation loader that delivers a batch of more or fewer
    than one sample makes [evaluate] raise inside its loop: it ends with
    an exception, prints nothing, neither an accuracy nor an F1 score,
    and writes nothing to the log file. *)
Theorem evaluate_reports_no_accuracy
    (val_loader : DataLoader) (model : Model) (w : world) (batches : list batch) :
  fst (iter_loader val_loader (set_grad false w)) = Ok batches ->
  Exists (fun b => length (labels b) <> 1) batches ->
  exists e evs,
    fst (evaluate val_loader model w) = Raise e /\
    trace (snd (evaluate val_loader model w)) = trace w ++ evs /\
    console evs = [] /\
    appended (experiment_name ++ ".txt") evs = [].
Proof.
  intros Hit Hex. unfold evaluate, no_grad.
  destruct (iter_loader_ok val_loader (set_grad false w)) as (bs & w1 & Hrun & Ht1 & Hg1).
  rewrite Hrun in Hit. cbn [fst] in Hit. injection Hit as ->.
  rewrite (@bind_run_ok _ _ _ _ _ _ _ Hrun).
  destruct (@emits_forwards_evaluate_batches false (eval_mode model) batches eval_init w1 Hg1)
    as (_ & evs & Htr & Hall).
  destruct (evaluate_batches (eval_mode model) batches eval_init w1) as [[st'|e] w2] eqn:Hloop.
  - apply evaluate_batches_ok in Hloop as (pairs & Hpairs & _).
    destruct (sample_pairs_single Hpairs) as [Hsingle _].
    apply Exists_exists in Hex as (b & Hin & Hb).
    rewrite Forall_forall in Hsingle. now destruct Hb; apply Hsingle.
  - exists e, evs. rewrite (@bind_run_raise _ _ _ _ _ _ _ Hloop).
    cbn [fst snd trace set_grad] in *. rewrite Htr, Ht1.
    destruct (forwards_silent (experiment_name ++ ".txt") _ Hall). auto.
Qed.

(** *** Gradient tracking and parameters during [evaluate] *)

Ltac emits_step :=
  first [ apply emits_ret
        | apply emits_lift
        | apply emits_emit; reflexivity
        | apply emits_loss_backward
        | apply emits_new_Linear
        | apply emits_iter_loader
        | apply emits_call_model;
          first [ reflexivity
                | match goal with H : training _ = _ |- _ => rewrite H; reflexivity end ]
        | match goal with
          | |- emits _ _ (match ?a with _ => _ end) => destruct a
          | |- emits _ _ (if ?c then _ else _) => destruct c
          end
        | apply emits_bind; [| intros ?] ].

Lemma emits_evaluate_batch (model : Model) (b : batch) (st : eval_state) :
  training model = false ->
  emits false eval_event (evaluate_batch model b st).
Proof.
  intros Htr. unfold evaluate_batch. repeat emits_step.
Qed.

Lemma emits_evaluate_batches (model : Model) (bs : list batch) :
  training model = false ->
  forall st, emits false eval_event (evaluate_batches model bs st).
Proof.
  intros Htr. induction bs as [|b bs IH]; intros st; simpl.
  - apply emits_ret.
  - apply emits_bind; [now apply emits_evaluate_batch | intros st'; apply IH].
Qed.

Lemma emits_report (st : eval_state) : emits false eval_event (report st).
Proof. unfold report. repeat emits_step. Qed.

Lemma emits_evaluate (g : bool) (val_loader : DataLoader) (model : Model) :
  emits g eval_event (evaluate val_loader model).
Proof.
  unfold evaluate. apply emits_no_grad.
  apply emits_bind; [apply emits_iter_loader | intros batches].
  apply emits_bind; [now apply emits_evaluate_batches | intros st].
  apply emits_bind; [apply emits_report | intros u; apply emits_ret].
Qed.

(** C8.  In every run of [evaluate], completed or not, each forward pass
    is made with gradient tracking switched off and the model in
    inference mode, no optimizer step is taken, and the surrounding
    gradient mode is restored at the end; when [evaluate] returns, the
    parameters of the model are the ones it was called with. *)
Theorem evaluate_no_grad_no_mutation
    (val_loader : DataLoader) (model : Model) (w : world) :
  exists evs,
    trace (snd (evaluate val_loader model w)) = trace w ++ evs /\
    forallb eval_event evs = true /\
    grad_enabled (snd (evaluate val_loader model w)) = grad_enabled w /\
    match fst (evaluate val_loader model w) with
    | Ok model' => state_dict model' = state_dict model
    | Raise _ => True
    end.
Proof.
  destruct (@emits_evaluate (grad_enabled w) val_loader model w eq_refl)
    as (Hg & evs & Htr & Hall).
  exists evs. repeat split; auto.
  destruct (evaluate val_loader model w) as [[model'|e] w'] eqn:H; simpl; [|exact I].
  apply evaluate_ok in H as (_ & _ & _ & _ & _ & _ & _ & -> & _). reflexivity.
Qed.

(** *** The training loop *)

Lemma train_batch_ok (criterion : outputs -> list Z -> result loss_t)
    (epoch num_epochs n i : nat) (b : batch) (st st' : train_state) (w w' : world) :
  train_batch criterion epoch num_epochs n i b st w = (Ok st', w') ->
  exists loss evs,
    batch_loss criterion b loss /\
    trace w' = trace w ++ evs /\
    let line := progress_line (epoch + 1) num_epochs (i + 1) n loss in
    if (i + 1) mod 100 =? 0 then
      console evs = [line] /\ appended log_file evs = [line] /\
      loss_hist st' = loss_hist st ++ [loss] /\
      step_hist st' = step_hist st ++ [i + 1]
    else
      console evs = [] /\ appended log_file evs = [] /\
      loss_hist st' = loss_hist st /\
      step_hist st' = step_hist st.
Proof.
  unfold train_batch. intros H.
  step_ok H label Hlabel. step_ok H cov Hcov. step_ok H outs Hfwd.
  step_ok H loss Hloss. step_ok H g Hg. step_ok H mo Hmo.
  destruct mo as [model' optimizer'].
  unfold call_model in Hfwd.
  destruct (forward (ts_model st) (images b) (rng_state w)) as [r gen] eqn:Hf.
  injection Hfwd as -> <-.
  unfold loss_backward in Hg. cbn [grad_enabled set_rng set_trace] in Hg.
  destruct (grad_enabled w) eqn:Hgrad; [|discriminate].
  injection Hg as <- <-.
  injection Hmo as Hadam.
  exists (loss_item loss).
  assert (Hbl : batch_loss criterion b (loss_item loss)).
  { exists label, (ts_model st), (rng_state w), outs, gen, loss. auto. }
  destruct ((i + 1) mod 100 =? 0).
  - step_ok H u1 Hu1. step_ok H u2 Hu2. step_ok H u3 Hu3.
    unfold ret in H. injection H as <- <-.
    eexists. split; [exact Hbl|]. cbn [trace set_trace set_rng grad_enabled rng_state].
    split; [rewrite <- !app_assoc; reflexivity|].
    cbn. auto.
  - unfold ret in H. injection H as <- <-.
    eexists. split; [exact Hbl|]. cbn [trace set_trace set_rng grad_enabled rng_state].
    split; [rewrite <- !app_assoc; reflexivity|].
    cbn. auto.
Qed.

Lemma logged_cons (i : nat) (l : float) (ls : list float) :
  logged i (l :: ls)
  = if (i + 1) mod 100 =? 0 then (i + 1, l) :: logged (S i) ls else logged (S i) ls.
Proof.
  unfold logged. cbn [length seq combine filter fst].
  replace (S (i + 1)) with (S i + 1) by lia. reflexivity.
Qed.

(** The inner loop, when it completes, from batch number [i] on. *)
Lemma train_batches_ok (criterion : outputs -> list Z -> result loss_t)
    (epoch num_epochs n : nat) (bs : list batch) :
  forall (i : nat) (st st' : train_state) (w w' : world),
  train_batches criterion epoch num_epochs n i bs st w = (Ok st', w') ->
  exists losses evs,
    Forall2 (batch_loss criterion) bs losses /\
    trace w' = trace w ++ evs /\
    step_hist st' = step_hist st ++ map fst (logged i losses) /\
    loss_hist st' = loss_hist st ++ map snd (logged i losses) /\
    console evs = progress_lines (epoch + 1) num_epochs n (logged i losses) /\
    appended log_file evs = progress_lines (epoch + 1) num_epochs n (logged i losses).
Proof.
  induction bs as [|b bs IH]; intros i st st' w w' H; simpl in H.
  - unfold ret in H. injection H as <- <-. exists [], [].
    cbn. rewrite !app_nil_r. repeat split; auto.
  - apply bind_ok in H as (st1 & w1 & Hb & H).
    apply train_batch_ok in Hb as (loss & evs1 & Hbl & Htr1 & Hb).
    apply IH in H as (losses & evs2 & Hls & Htr2 & Hsteps & Hlosses & Hcon & Happ).
    exists (loss :: losses), (evs1 ++ evs2).
    split; [now constructor|].
    split; [rewrite Htr2, Htr1, app_assoc; reflexivity|].
    rewrite logged_cons, console_app, appended_app. cbv zeta in Hb.
    destruct ((i + 1) mod 100 =? 0); destruct Hb as (Hc1 & Ha1 & Hl1 & Hs1);
      rewrite Hsteps, Hlosses, Hs1, Hl1, Hc1, Ha1, Hcon, Happ; cbn;
      rewrite <- ?app_assoc; auto.
Qed.

(** A pair is logged exactly when it is the loss of a batch whose number
    plus one is a multiple of 100. *)
Lemma in_logged (losses : list float) :
  forall (i step : nat) (loss : float),
  In (step, loss) (logged i losses) <->
  exists j, step = i + j + 1 /\ nth_error losses j = Some loss /\ step mod 100 = 0.
Proof.
  induction losses as [|l ls IH]; intros i step loss.
  - cbn. split; [intros [] | intros ([|j] & _ & Hj & _); discriminate Hj].
  - rewrite logged_cons.
    assert (Hrest : In (step, loss) (logged (S i) ls) <->
                    exists j, step = i + S j + 1 /\ nth_error ls j = Some loss
                              /\ step mod 100 = 0).
    { rewrite IH. split; intros (j & Hs & Hj & Hm); exists j; repeat split; auto; lia. }
    destruct (Nat.eqb_spec ((i + 1) mod 100) 0) as [Hmod | Hmod].
    + split.
      * intros [Heq | Hin].
        -- injection Heq as <- <-. exists 0. cbn. repeat split; auto; lia.
        -- apply Hrest in Hin as (j & Hs & Hj & Hm). exists (S j). auto.
      * intros ([|j] & Hs & Hj & Hm).
        -- left. cbn in Hj. injection Hj as ->. f_equal. lia.
        -- right. apply Hrest. exists j. auto.
    + split.
      * intros Hin. apply Hrest in Hin as (j & Hs & Hj & Hm). exists (S j). auto.
      * intros ([|j] & Hs & Hj & Hm).
        -- subst step. replace (i + 0 + 1) with (i + 1) in Hm by lia. contradiction.
        -- apply Hrest. exists j. auto.
Qed.

Lemma emits_train_batch g (criterion : outputs -> list Z -> result loss_t)
    (epoch num_epochs n i : nat) (b : batch) (st : train_state) :
  emits g batch_event (train_batch criterion epoch num_epochs n i b st).
Proof. unfold train_batch, optimizer_step. repeat emits_step. Qed.

Lemma emits_train_batches g (criterion : outputs -> list Z -> result loss_t)
    (epoch num_epochs n : nat) (bs : list batch) :
  forall i st, emits g batch_event (train_batches criterion epoch num_epochs n i bs st).
Proof.
  induction bs as [|b bs IH]; intros i st; simpl.
  - apply emits_ret.
  - apply emits_bind; [apply emits_train_batch | intros st'; apply IH].
Qed.

(** One completed epoch, spelled out. *)
Lemma train_epoch_ok (train_loader : DataLoader)
    (criterion : outputs -> list Z -> result loss_t) (num_epochs epoch : nat)
    (mo mo' : Model * opt_state) (w w' : world) :
  train_epoch train_loader criterion num_epochs epoch mo w = (Ok mo', w') ->
  exists batches losses evs,
    fst (iter_loader train_loader w) = Ok batches /\
    Forall2 (batch_loss criterion) batches losses /\
    forallb batch_event evs = true /\
    trace w' = trace w ++ evs
      ++ [ESavefig experiment_name ("epoch" ++ str (epoch + 1))
            (map fst (logged 0 losses)) (map snd (logged 0 losses))] /\
    console evs = progress_lines (epoch + 1) num_epochs (len train_loader) (logged 0 losses) /\
    appended log_file evs
      = progress_lines (epoch + 1) num_epochs (len train_loader) (logged 0 losses).
Proof.
  unfold train_epoch. intros H.
  destruct (iter_loader_ok train_loader w) as (batches & w1 & Hit & Ht1 & Hg1).
  apply bind_ok in H as (batches' & w1' & Hit' & H).
  rewrite Hit in Hit'. injection Hit' as <- <-.
  apply bind_ok in H as (st' & w2 & Hloop & H).
  unfold make_plots in H. step_ok H u Hu. unfold ret in H. injection H as <- <-.
  match type of Hloop with
  | train_batches _ _ _ _ _ _ ?st0 _ = _ =>
      destruct (@emits_train_batches (grad_enabled w1) criterion epoch num_epochs
                  (len train_loader) batches 0 st0 w1 eq_refl) as (_ & evs' & Htr' & Hall)
  end.
  rewrite Hloop in Htr'. cbn [snd] in Htr'.
  apply train_batches_ok in Hloop as (losses & evs & Hls & Htr & Hsteps & Hlosses & Hcon & Happ).
  rewrite Htr in Htr'. apply app_inv_head in Htr'. subst evs'.
  cbn [step_hist loss_hist app] in Hsteps, Hlosses.
  exists batches, losses, evs. rewrite Hit. cbn [fst].
  repeat split; auto.
  cbn [trace set_trace]. rewrite Htr, Ht1, Hsteps, Hlosses, <- app_assoc. reflexivity.
Qed.

(** C6.  In a completed epoch, the console and the log file
    [<experiment_name>.txt] receive, for each batch whose number plus one
    is a multiple of 100, in order, and for no other batch, the line
    "Epoch: [e/n], Step[s/len], Loss:l" with e the epoch plus one, n the
    number of epochs, s the batch number plus one, len the length of the
    loader and l the formatted loss of that batch; the numbers are
    rendered in decimal, which tells different numbers apart.  The same
    (step, loss) pairs, and no others, form the two histories handed to
    the plot at the end of the epoch. *)
Theorem train_logs_every_100th
    (train_loader : DataLoader) (criterion : outputs -> list Z -> result loss_t)
    (num_epochs epoch : nat) (mo mo' : Model * opt_state) (w w' : world) :
  train_epoch train_loader criterion num_epochs epoch mo w = (Ok mo', w') ->
  exists batches losses evs,
    fst (iter_loader train_loader w) = Ok batches /\
    Forall2 (batch_loss criterion) batches losses /\
    let rec := logged 0 losses in
    let line := fun p : nat * float =>
      ("Epoch: [" ++ str (epoch + 1) ++ "/" ++ str num_epochs ++ "], Step["
       ++ str (fst p) ++ "/" ++ str (len train_loader) ++ "], Loss:"
       ++ fmt4 (snd p))%string in
    (forall step loss,
        In (step, loss) rec <->
        exists i, step = i + 1 /\ nth_error losses i = Some loss /\ (i + 1) mod 100 = 0) /\
    trace w' = trace w ++ evs
      ++ [ESavefig experiment_name ("epoch" ++ str (epoch + 1)) (map fst rec) (map snd rec)] /\
    console evs = map line rec /\
    appended (experiment_name ++ ".txt") evs = map line rec /\
    (forall a b, str a = str b -> a = b).
Proof.
  intros H.
  apply train_epoch_ok in H as (batches & losses & evs & Hit & Hls & _ & Htr & Hcon & Happ).
  exists batches, losses, evs. cbv zeta. repeat split; auto.
  - intros Hin. apply in_logged in Hin as (j & Hs & Hj & Hm).
    exists j. subst step. auto.
  - intros (i & -> & Hi & Hm). apply in_logged. exists i. auto.
  - apply str_inj.
Qed.

(** *** The checkpoint *)

Lemma batch_event_not_checkpoint (e : event) :
  batch_event e = true -> not_checkpoint e = true.
Proof. unfold batch_event, not_checkpoint. now intros [H _]%andb_prop. Qed.

Lemma batch_events_no_savefig (evs : list event) :
  forallb batch_event evs = true -> filter is_savefig evs = [].
Proof.
  induction evs as [|e evs IH]; simpl; [reflexivity|].
  intros [He Hall]%andb_prop. apply andb_prop in He as [_ He].
  destruct (is_savefig e); [discriminate | auto].
Qed.

Lemma emits_train_epochs g (train_loader : DataLoader)
    (criterion : outputs -> list Z -> result loss_t) (num_epochs : nat)
    (epochs : list nat) :
  forall mo, emits g not_checkpoint (train_epochs train_loader criterion num_epochs epochs mo).
Proof.
  induction epochs as [|epoch epochs IH]; intros mo; simpl.
  - apply emits_ret.
  - apply emits_bind; [|intros mo'; apply IH].
    unfold train_epoch, make_plots.
    apply emits_bind; [apply emits_iter_loader | intros batches].
    apply emits_bind; [|intros st'; repeat emits_step].
    eapply emits_weaken; [apply batch_event_not_checkpoint | apply emits_train_batches].
Qed.

(** All the epochs of a completed run: no checkpoint, one plot each. *)
Lemma train_epochs_ok (train_loader : DataLoader)
    (criterion : outputs -> list Z -> result loss_t) (num_epochs : nat)
    (epochs : list nat) :
  forall (mo mo' : Model * opt_state) (w w' : world),
  train_epochs train_loader criterion num_epochs epochs mo w = (Ok mo', w') ->
  exists evs,
    trace w' = trace w ++ evs /\
    forallb not_checkpoint evs = true /\
    length (filter is_savefig evs) = length epochs.
Proof.
  induction epochs as [|epoch epochs IH]; intros mo mo' w w' H; simpl in H.
  - unfold ret in H. injection H as <- <-. exists []. rewrite app_nil_r. auto.
  - apply bind_ok in H as (mo1 & w1 & He & H).
    apply train_epoch_ok in He as (bs1 & ls1 & evs1 & _ & _ & Hall1 & Htr1 & _).
    apply IH in H as (evs2 & Htr2 & Hall2 & Hcount).
    eexists. split; [rewrite Htr2, Htr1, <- !app_assoc; reflexivity|].
    split.
    + rewrite !forallb_app, Hall2. cbn. rewrite andb_true_r.
      rewrite forallb_forall in *. intros e He. now apply batch_event_not_checkpoint, Hall1.
    + rewrite !filter_app, (batch_events_no_savefig _ Hall1). cbn. now rewrite Hcount.
Qed.

(** C7.  When all the epochs of a run of [train] complete, the run
    completes, and what it adds to the trace is the events of the epochs,
    among them one plot per epoch and no checkpoint, followed by one
    checkpoint, written to [<experiment_name>.ckpt] and holding the
    parameters of the model that [train] returns: the checkpoint is
    written exactly once, after the last epoch.  When an epoch raises,
    the run raises with the same exception and writes no checkpoint. *)
Theorem train_checkpoint_once
    (train_loader : DataLoader) (model : Model)
    (criterion : outputs -> list Z -> result loss_t) (optimizer : opt_state)
    (num_epochs : nat) (w : world) :
  exists evs,
    trace (snd (train train_loader model criterion optimizer num_epochs w)) = trace w ++ evs /\
    match fst (train_epochs train_loader criterion num_epochs (seq 0 num_epochs)
                 (model, optimizer) w) with
    | Ok mo =>
        fst (train train_loader model criterion optimizer num_epochs w) = Ok mo /\
        exists epochs_evs,
          evs = epochs_evs
                ++ [ECheckpoint (experiment_name ++ ".ckpt") (state_dict (fst mo))] /\
          forallb not_checkpoint epochs_evs = true /\
          length (filter is_savefig epochs_evs) = num_epochs /\
          length (filter is_checkpoint evs) = 1
    | Raise e =>
        fst (train train_loader model criterion optimizer num_epochs w) = Raise e /\
        filter is_checkpoint evs = []
    end.
Proof.
  assert (Hnone : forall l, forallb not_checkpoint l = true -> filter is_checkpoint l = []).
  { induction l as [|x l IH]; simpl; [reflexivity|].
    intros [Hx Hl]%andb_prop. unfold not_checkpoint in Hx.
    destruct (is_checkpoint x); [discriminate | auto]. }
  unfold train, bind.
  destruct (train_epochs train_loader criterion num_epochs (seq 0 num_epochs)
              (model, optimizer) w) as [[mo|e] w1] eqn:H.
  - apply train_epochs_ok in H as (evs & Htr & Hall & Hcount).
    eexists. cbn [fst snd emit ret trace set_trace].
    split; [rewrite Htr, <- app_assoc; reflexivity|].
    split; [reflexivity|]. exists evs.
    rewrite length_seq in Hcount.
    repeat split; auto.
    rewrite filter_app, (Hnone _ Hall). reflexivity.
  - destruct (@emits_train_epochs (grad_enabled w) train_loader criterion num_epochs
                (seq 0 num_epochs) (model, optimizer) w eq_refl) as (_ & evs & Htr & Hall).
    rewrite H in Htr. exists evs. cbn [fst snd] in *. auto.
Qed.

(** *** The covariate column does not matter *)

Lemma select_col_other (k : nat) (l1 l2 : list (list Z)) :
  k <> 20 -> Forall2 same_but_cov l1 l2 -> select_col k l1 = select_col k l2.
Proof.
  intros Hk. unfold select_col. induction 1 as [|r1 r2 l1 l2 [_ Hr] _ IH]; simpl.
  - reflexivity.
  - now rewrite (Hr k Hk), IH.
Qed.

(** Selecting any column either fails on both tensors, in the same way,
    or succeeds on both. *)
Lemma select_col_shape (k : nat) (l1 l2 : list (list Z)) :
  Forall2 same_but_cov l1 l2 ->
  (select_col k l1 = Raise IndexError /\ select_col k l2 = Raise IndexError) \/
  (exists c1 c2, select_col k l1 = Ok c1 /\ select_col k l2 = Ok c2).
Proof.
  unfold select_col. induction 1 as [|r1 r2 l1 l2 [Hlen _] _ IH]; simpl.
  - right. eauto.
  - destruct (nth_error r1 k) as [v1|] eqn:H1, (nth_error r2 k) as [v2|] eqn:H2; simpl.
    + destruct IH as [[-> ->] | (c1 & c2 & -> & ->)]; simpl; [left | right]; eauto.
    + apply nth_error_None in H2. assert (Hs : nth_error r1 k <> None) by congruence.
      apply nth_error_Some in Hs. lia.
    + apply nth_error_None in H1. assert (Hs : nth_error r2 k <> None) by congruence.
      apply nth_error_Some in Hs. lia.
    + left. auto.
Qed.

Lemma train_batch_variant (criterion : outputs -> list Z -> result loss_t)
    (epoch num_epochs n i : nat) (b1 b2 : batch) (st : train_state) (w : world) :
  batch_variant b1 b2 ->
  train_batch criterion epoch num_epochs n i b1 st w
  = train_batch criterion epoch num_epochs n i b2 st w.
Proof.
  intros [Himg Hlab]. unfold train_batch, bind, lift.
  rewrite (select_col_other (k := 2) ltac:(lia) Hlab), Himg.
  destruct (select_col 2 (labels b2)); [|reflexivity].
  destruct (select_col_shape 20 Hlab) as [[-> ->] | (c1 & c2 & -> & ->)]; reflexivity.
Qed.

Lemma evaluate_batch_variant (model : Model) (b1 b2 : batch) (st : eval_state) (w : world) :
  batch_variant b1 b2 ->
  evaluate_batch model b1 st w = evaluate_batch model b2 st w.
Proof.
  intros [Himg Hlab]. unfold evaluate_batch, bind, lift.
  rewrite (select_col_other (k := 2) ltac:(lia) Hlab), Himg.
  destruct (select_col 2 (labels b2)); [|reflexivity].
  destruct (select_col_shape 20 Hlab) as [[-> ->] | (c1 & c2 & -> & ->)]; reflexivity.
Qed.

Lemma train_batches_variant (criterion : outputs -> list Z -> result loss_t)
    (epoch num_epochs n : nat) (bs1 bs2 : list batch) :
  Forall2 batch_variant bs1 bs2 ->
  forall i st w,
    train_batches criterion epoch num_epochs n i bs1 st w
    = train_batches criterion epoch num_epochs n i bs2 st w.
Proof.
  induction 1 as [|b1 b2 bs1 bs2 Hb _ IH]; intros i st w; simpl; [reflexivity|].
  unfold bind. rewrite (train_batch_variant _ _ _ _ _ _ _ Hb).
  destruct (train_batch criterion epoch num_epochs n i b2 st w) as [[st'|e] w1]; auto.
Qed.

Lemma evaluate_batches_variant (model : Model) (bs1 bs2 : list batch) :
  Forall2 batch_variant bs1 bs2 ->
  forall st w, evaluate_batches model bs1 st w = evaluate_batches model bs2 st w.
Proof.
  induction 1 as [|b1 b2 bs1 bs2 Hb _ IH]; intros st w; simpl; [reflexivity|].
  unfold bind. rewrite (evaluate_batch_variant _ _ _ Hb).
  destruct (evaluate_batch model b2 st w) as [[st'|e] w1]; auto.
Qed.

Lemma Forall2_firstn {A B} (R : A -> B -> Prop) (n : nat) (l1 : list A) (l2 : list B) :
  Forall2 R l1 l2 -> Forall2 R (firstn n l1) (firstn n l2).
Proof.
  intros H. revert n. induction H; intros [|n]; simpl; constructor; auto.
Qed.

Lemma Forall2_skipn {A B} (R : A -> B -> Prop) (n : nat) (l1 : list A) (l2 : list B) :
  Forall2 R l1 l2 -> Forall2 R (skipn n l1) (skipn n l2).
Proof.
  intros H. revert n. induction H; intros [|n]; simpl; auto.
Qed.

Lemma Forall2_chunk {A B} (R : A -> B -> Prop) (size : nat) (l1 : list A) (l2 : list B) :
  Forall2 R l1 l2 -> Forall2 (Forall2 R) (chunk size l1) (chunk size l2).
Proof.
  intros H. unfold chunk. destruct size as [|size]; [constructor|].
  rewrite <- (Forall2_length H).
  generalize (length l1) as fuel. intros fuel. revert l1 l2 H.
  induction fuel as [|fuel IH]; intros l1 l2 H; cbn [chunk_fuel]; [constructor|].
  destruct H as [|x y l1 l2 Hxy H]; [constructor|].
  constructor.
  - apply (Forall2_firstn (S size)). now constructor.
  - apply IH. apply (Forall2_skipn (S size)). now constructor.
Qed.

Lemma Forall2_gather (ds1 ds2 : list sample) (perm : list nat) :
  Forall2 sample_variant ds1 ds2 ->
  Forall2 sample_variant (gather ds1 perm) (gather ds2 perm).
Proof.
  intros H. unfold gather. induction perm as [|i perm IH]; simpl; [constructor|].
  apply Forall2_app; [|exact IH].
  clear IH. revert i. induction H as [|s1 s2 ds1 ds2 Hs H IH]; intros [|i]; simpl;
    try constructor; auto.
Qed.

Lemma collate_variant (c1 c2 : list sample) :
  Forall2 sample_variant c1 c2 -> batch_variant (collate c1) (collate c2).
Proof.
  unfold batch_variant, collate. simpl.
  induction 1 as [|s1 s2 c1 c2 [Hi Hr] _ [IH1 IH2]]; simpl.
  - split; [reflexivity | constructor].
  - split; [now rewrite Hi, IH1 | now constructor].
Qed.

Lemma iter_loader_variant (dl1 dl2 : DataLoader) (w : world) :
  cov_variant dl1 dl2 ->
  exists bs1 bs2 w1,
    iter_loader dl1 w = (Ok bs1, w1) /\
    iter_loader dl2 w = (Ok bs2, w1) /\
    Forall2 batch_variant bs1 bs2.
Proof.
  intros (Hbs & Hsh & Hds). unfold iter_loader.
  rewrite <- Hsh, <- Hbs, <- (Forall2_length Hds).
  assert (Hmap : forall l1 l2, Forall2 (Forall2 sample_variant) l1 l2 ->
                 Forall2 batch_variant (map collate l1) (map collate l2)).
  { induction 1; simpl; constructor; auto using collate_variant. }
  destruct (shuffle dl1).
  - destruct (randperm (rng_state w) (length (dataset dl1))) as [perm g].
    eexists _, _, _. repeat split. apply Hmap, Forall2_chunk, Forall2_gather, Hds.
  - eexists _, _, _. repeat split. apply Hmap, Forall2_chunk, Hds.
Qed.

Lemma len_variant (dl1 dl2 : DataLoader) : cov_variant dl1 dl2 -> len dl1 = len dl2.
Proof.
  intros (Hbs & _ & Hds). unfold len. now rewrite Hbs, (Forall2_length Hds).
Qed.

Lemma train_epochs_variant (dl1 dl2 : DataLoader)
    (criterion : outputs -> list Z -> result loss_t) (num_epochs : nat)
    (epochs : list nat) :
  cov_variant dl1 dl2 ->
  forall mo w,
    train_epochs dl1 criterion num_epochs epochs mo w
    = train_epochs dl2 criterion num_epochs epochs mo w.
Proof.
  intros Hv. induction epochs as [|epoch epochs IH]; intros mo w; simpl; [reflexivity|].
  assert (He : train_epoch dl1 criterion num_epochs epoch mo w
               = train_epoch dl2 criterion num_epochs epoch mo w).
  { unfold train_epoch.
    destruct (iter_loader_variant w Hv) as (bs1 & bs2 & w1 & H1 & H2 & Hbs).
    rewrite (@bind_run_ok _ _ _ _ _ _ _ H1), (@bind_run_ok _ _ _ _ _ _ _ H2), (len_variant Hv).
    unfold bind at 1 3. now rewrite (train_batches_variant _ _ _ _ Hbs). }
  unfold bind. rewrite He.
  destruct (train_epoch dl2 criterion num_epochs epoch mo w) as [[mo'|e] w1]; auto.
Qed.

(** C9.  Two runs of the training loop, or of the evaluation loop, over
    loaders that differ in the covariate column (index 20) of their labels
    only, started from the same model, optimizer and world, are
    indistinguishable: they return the same result or raise the same
    exception and leave the same trace, so every forward pass, loss,
    prediction, log line, plot, checkpoint and reported metric is the
    same. *)
Theorem covariate_has_no_influence
    (dl1 dl2 : DataLoader) (model : Model)
    (criterion : outputs -> list Z -> result loss_t) (optimizer : opt_state)
    (num_epochs : nat) (w : world) :
  cov_variant dl1 dl2 ->
  train dl1 model criterion optimizer num_epochs w
  = train dl2 model criterion optimizer num_epochs w /\
  evaluate dl1 model w = evaluate dl2 model w.
Proof.
  intros Hv. split.
  - unfold train, bind. now rewrite (train_epochs_variant _ _ _ Hv).
  - unfold evaluate, no_grad.
    destruct (iter_loader_variant (set_grad false w) Hv) as (bs1 & bs2 & w1 & H1 & H2 & Hbs).
    rewrite (@bind_run_ok _ _ _ _ _ _ _ H1), (@bind_run_ok _ _ _ _ _ _ _ H2).
    unfold bind at 1 3. now rewrite (evaluate_batches_variant _ Hbs).
Qed.

(** *** [main] *)

Lemma main_unfolded (w : world) : main w = main_normal_form w.
Proof.
  unfold main, main_normal_form, load_data, bind, lift, emit, ret.
  destruct (CelebA "train") as [tr|e]; [|reflexivity].
  destruct (CelebA "valid") as [va|e]; [|reflexivity].
  destruct (CelebA "test") as [te|e]; [|reflexivity].
  unfold new_DataLoader. cbn [andb Nat.eqb].
  destruct (length tr =? 0); [reflexivity|].
  match goal with
  | |- context [initialize_model ?m ?lr ?n ?w0] =>
      destruct (initialize_model m lr n w0) as [[[[model crit] opt]|e] w1]
  end; reflexivity.
Qed.

Lemma emits_main (g : bool) : emits g eval_event main.
Proof.
  unfold main, load_data, initialize_model.
  repeat first [ apply emits_evaluate | emits_step ].
Qed.

Lemma eval_events_no_checkpoint (evs : list event) :
  forallb eval_event evs = true -> filter is_checkpoint evs = [].
Proof.
  induction evs as [|e evs IH]; simpl; [reflexivity|].
  intros [He Hall]%andb_prop. unfold eval_event, is_training_event in He.
  destruct (is_checkpoint e); [|auto].
  simpl in He. now rewrite andb_false_r in He.
Qed.

(** C10.  [main] prints, reads the three splits and builds the loaders
    (stopping there when the data cannot be read or the training split is
    empty), runs [initialize_model] on the pretrained backbone and hands
    the model it returns to [evaluate] over the validation loader; the
    training loop is not part of it.  In every run, completed or not, no
    checkpoint is written, no plot is saved, no optimizer step is taken,
    and every forward pass is made in inference mode without gradient
    tracking. *)
Theorem main_never_trains (w : world) :
  main w = main_normal_form w /\
  exists evs,
    trace (snd (main w)) = trace w ++ evs /\
    forallb eval_event evs = true /\
    filter is_checkpoint evs = [].
Proof.
  split; [apply main_unfolded|].
  destruct (@emits_main (grad_enabled w) w eq_refl) as (_ & evs & Htr & Hall).
  exists evs. auto using eval_events_no_checkpoint.
Qed.

(** With the configured batch size of 8, a validation split of two or
    more samples makes [main] raise: its first batch is not a single
    sample. *)
Lemma main_raises (w : world) (val_dataset : list sample) :
  CelebA "valid" = Ok val_dataset -> 2 <= length val_dataset ->
  is_ok (fst (main w)) = false.
Proof.
  intros Hval Hlen. rewrite main_unfolded.
  destruct (main_normal_form w) as [[u|e] w'] eqn:H; [|reflexivity].
  unfold main_normal_form in H.
  step_ok H u1 Hu1. step_ok H tr Htr. step_ok H va Hva. step_ok H te Hte.
  step_ok H trl Htl. step_ok H u2 Hu2. step_ok H r Hr. step_ok H u3 Hu3.
  apply bind_ok in H as (model' & w2 & Hev & _).
  rewrite Hval in Hva. injection Hva as <-.
  eapply evaluate_ok_single in Hev; [|reflexivity].
  unfold main_val_loader in Hev. cbn [shuffle dataset batch_size chunk] in Hev.
  destruct val_dataset as [|s1 [|s2 rest]]; simpl in Hlen; try lia.
  cbn in Hev. inversion Hev as [|b bs Hb _]. discriminate Hb.
Qed.

(** *** The prediction is an index of a largest logit *)

Section ArgmaxOrder.

Hypothesis ltb_irrefl : forall x, float_ltb x x = false.
Hypothesis ltb_trans :
  forall x y z, float_ltb x y = true -> float_ltb y z = true -> float_ltb x z = true.

Lemma argmax_from_spec (row : list float) :
  forall (best_i : nat) (best : float) (i : nat),
  best_i < i ->
  exists v,
    ((argmax_from best_i best i row = best_i /\ v = best) \/
     (i <= argmax_from best_i best i row /\
      nth_error row (argmax_from best_i best i row - i) = Some v)) /\
    (v = best \/ float_ltb best v = true) /\
    float_ltb v best = false /\
    Forall (fun x => float_ltb v x = false) row.
Proof.
  induction row as [|x xs IH]; intros best_i best i Hlt; simpl.
  - exists best. auto.
  - destruct (float_ltb best x) eqn:Hbx.
    + destruct (IH i x (S i) (Nat.lt_succ_diag_r i)) as (v & Hk & Hv & Hvx & Hall).
      exists v. repeat split.
      * right. destruct Hk as [[-> ->] | [Hle Hnth]].
        -- split; [lia|]. now rewrite Nat.sub_diag.
        -- split; [lia|].
           replace (argmax_from i x (S i) xs - i)
             with (S (argmax_from i x (S i) xs - S i)) by lia.
           exact Hnth.
      * right. destruct Hv as [-> | Hxv]; [exact Hbx | eauto].
      * destruct (float_ltb v best) eqn:Hvb; [|reflexivity].
        rewrite (ltb_trans _ _ _ Hvb Hbx) in Hvx. discriminate.
      * constructor; assumption.
    + destruct (IH best_i best (S i) (Nat.lt_lt_succ_r _ _ Hlt)) as (v & Hk & Hv & Hvb & Hall).
      exists v. repeat split; auto.
      * destruct Hk as [[-> ->] | [Hle Hnth]]; [left; auto | right].
        split; [lia|].
        replace (argmax_from best_i best (S i) xs - i)
          with (S (argmax_from best_i best (S i) xs - S i)) by lia.
        exact Hnth.
      * constructor; [|exact Hall].
        destruct Hv as [-> | Hbv]; [exact Hbx|].
        destruct (float_ltb v x) eqn:Hvx; [|reflexivity].
        rewrite (ltb_trans _ _ _ Hbv Hvx) in Hbx. discriminate.
Qed.

(** When the comparison of logits is a strict order, [argmax] returns
    the index of an entry that no entry of the row exceeds. *)
Lemma argmax_is_max (row : list float) (z : Z) :
  argmax row = Ok z ->
  exists k v,
    z = Z.of_nat k /\ nth_error row k = Some v /\
    Forall (fun x => float_ltb v x = false) row.
Proof.
  destruct row as [|x xs]; simpl; [discriminate|]. intros H. injection H as <-.
  destruct (argmax_from_spec xs (best_i := 0) x (i := 1) Nat.lt_0_1)
    as (v & Hk & _ & Hvx & Hall).
  exists (argmax_from 0 x 1 xs), v. repeat split; auto.
  destruct Hk as [[-> ->] | [Hle Hnth]]; [reflexivity|].
  destruct (argmax_from 0 x 1 xs) as [|k]; [lia|].
  simpl in *. now rewrite Nat.sub_0_r in Hnth.
Qed.

End ArgmaxOrder.

(** *** Batching and [load_data] *)

Lemma chunk_fuel_concat {A} (size fuel : nat) :
  forall l : list A, length l <= fuel -> concat (chunk_fuel fuel (S size) l) = l.
Proof.
  induction fuel as [|fuel IH]; intros l Hlen.
  - destruct l; [reflexivity | simpl in Hlen; lia].
  - destruct l as [|x t]; [reflexivity|].
    cbn [chunk_fuel concat]. rewrite IH.
    + apply firstn_skipn.
    + rewrite length_skipn. simpl in *. lia.
Qed.

Lemma chunk_fuel_sizes {A} (size fuel : nat) :
  forall l : list A,
  Forall (fun c => 1 <= length c <= S size) (chunk_fuel fuel (S size) l).
Proof.
  induction fuel as [|fuel IH]; intros l; [constructor|].
  destruct l as [|x t]; [constructor|].
  cbn [chunk_fuel]. constructor; [|apply IH].
  rewrite length_firstn. simpl. lia.
Qed.

Lemma chunk_fuel_length {A} (size fuel : nat) :
  forall l : list A, length l <= fuel ->
  length (chunk_fuel fuel (S size) l) = (length l + size) / S size.
Proof.
  induction fuel as [|fuel IH]; intros l Hlen.
  - destruct l; [|simpl in Hlen; lia].
    cbn [chunk_fuel length]. rewrite Nat.add_0_l. symmetry. apply Nat.div_small. lia.
  - destruct l as [|x t].
    + cbn [chunk_fuel length]. rewrite Nat.add_0_l. symmetry. apply Nat.div_small. lia.
    + cbn [chunk_fuel length]. rewrite IH by (rewrite length_skipn; simpl in *; lia).
      rewrite length_skipn. cbn [length].
      destruct (Nat.le_gt_cases (S size) (S (length t))) as [Hge | Hlt].
      * replace (S (length t) + size) with ((S (length t) - S size + size) + 1 * S size) by lia.
        rewrite Nat.div_add by lia. lia.
      * replace (S (length t) - S size) with 0 by lia.
        replace (S (length t) + size) with (length t + 1 * S size) by lia.
        rewrite Nat.div_add by lia.
        rewrite (Nat.div_small (0 + size)), (Nat.div_small (length t)) by lia. reflexivity.
Qed.

Lemma batch_samples_collate (c : list sample) : batch_samples (collate c) = c.
Proof.
  unfold batch_samples, collate. simpl.
  induction c as [|[img row] c IH]; simpl; [reflexivity | now rewrite IH].
Qed.

Lemma concat_batch_samples (cs : list (list sample)) :
  concat (map batch_samples (map collate cs)) = concat cs.
Proof.
  induction cs as [|c cs IH]; simpl; [reflexivity|].
  now rewrite batch_samples_collate, IH.
Qed.

(** A loader that does not shuffle delivers its data set in order, cut
    into batches of [batch_size] samples, the last one possibly shorter
    but never empty; [len] is the number of batches. *)
Lemma ordered_loader_batches (dl : DataLoader) :
  shuffle dl = false -> 0 < batch_size dl -> delivers_in_order dl (dataset dl).
Proof.
  intros Hsh Hbs w. unfold iter_loader. rewrite Hsh.
  eexists. split; [reflexivity|].
  unfold chunk, len, well_batched. destruct (batch_size dl) as [|size] eqn:Hsize; [lia|].
  repeat split.
  - rewrite concat_batch_samples. now apply chunk_fuel_concat.
  - apply Forall_map. eapply Forall_impl; [|apply chunk_fuel_sizes].
    intros c Hc. unfold collate. simpl. now rewrite !length_map.
  - rewrite length_map, chunk_fuel_length by reflexivity.
    f_equal. lia.
Qed.

(** X1.  [load_data] first reads the three splits and raises what the
    first unreadable split raises; with the splits read it raises
    [ValueError] when the training split is empty (the shuffling loader
    refuses it) or the batch size is 0; otherwise it returns three
    loaders, the training loader shuffling the training split, and the
    validation and the test loader each deliver their split completely
    and in order, in [len] non-empty batches of at most [batch_size]
    samples.  In no case is anything printed or written. *)
Theorem load_data_ordered_splits (bs : nat) (w : world) :
  match CelebA "train", CelebA "valid", CelebA "test" with
  | Ok tr, Ok va, Ok te =>
      if (length tr =? 0) || (bs =? 0)
      then load_data bs w = (Raise ValueError, w)
      else
        exists train_loader val_loader test_loader,
          load_data bs w = (Ok (train_loader, val_loader, test_loader), w) /\
          dataset train_loader = tr /\
          shuffle train_loader = true /\
          batch_size train_loader = bs /\
          batch_size val_loader = bs /\
          batch_size test_loader = bs /\
          delivers_in_order val_loader va /\
          delivers_in_order test_loader te
  | Raise e, _, _ => load_data bs w = (Raise e, w)
  | Ok _, Raise e, _ => load_data bs w = (Raise e, w)
  | Ok _, Ok _, Raise e => load_data bs w = (Raise e, w)
  end.
Proof.
  unfold load_data, bind, lift, ret.
  destruct (CelebA "train") as [tr|e]; [|reflexivity].
  destruct (CelebA "valid") as [va|e]; [|reflexivity].
  destruct (CelebA "test") as [te|e]; [|reflexivity].
  unfold new_DataLoader. cbn [andb].
  destruct (length tr =? 0); [reflexivity|].
  destruct bs as [|n]; [reflexivity|]. cbn [orb Nat.eqb].
  eexists _, _, _. split; [reflexivity|].
  repeat split; try reflexivity;
    apply ordered_loader_batches; simpl; auto; lia.
Qed.

Lemma gather_seq (ds pre : list sample) :
  gather (pre ++ ds) (seq (length pre) (length ds)) = ds.
Proof.
  revert pre. induction ds as [|x t IH]; intros pre; [reflexivity|].
  cbn [length seq]. unfold gather in *. cbn [flat_map].
  rewrite nth_error_app2, Nat.sub_diag by lia. cbn [nth_error app].
  f_equal. specialize (IH (pre ++ [x])). rewrite <- app_assoc, length_app in IH.
  cbn [length app] in IH. now rewrite Nat.add_1_r in IH.
Qed.

(** X2.  When [randperm] yields permutations, a shuffling loader with a
    positive batch size delivers, in [len] non-empty batches of at most
    [batch_size] samples, a rearrangement of its data set: no sample is
    lost or delivered twice.  Nothing is printed or written; the random
    generator advances by the one permutation drawn. *)
Theorem shuffled_loader_permutes (dl : DataLoader) (w : world) :
  (forall r n, Permutation (fst (randperm r n)) (seq 0 n)) ->
  shuffle dl = true -> 0 < batch_size dl ->
  exists batches,
    fst (iter_loader dl w) = Ok batches /\
    Permutation (concat (map batch_samples batches)) (dataset dl) /\
    well_batched (batch_size dl) (len dl) batches /\
    trace (snd (iter_loader dl w)) = trace w /\
    rng_state (snd (iter_loader dl w))
    = snd (randperm (rng_state w) (length (dataset dl))).
Proof.
  intros Hperm Hsh Hbs. unfold iter_loader. rewrite Hsh.
  specialize (Hperm (rng_state w) (length (dataset dl))).
  destruct (randperm (rng_state w) (length (dataset dl))) as [perm g]. cbn [fst snd] in *.
  assert (Hg : Permutation (gather (dataset dl) perm) (dataset dl)).
  { rewrite <- (gather_seq (dataset dl) []) at 2. cbn [app length].
    unfold gather. now apply Permutation_flat_map. }
  eexists. split; [reflexivity|].
  unfold chunk, len, well_batched. destruct (batch_size dl) as [|size] eqn:Hsize; [lia|].
  repeat split.
  - rewrite concat_batch_samples, chunk_fuel_concat by reflexivity. exact Hg.
  - apply Forall_map. eapply Forall_impl; [|apply chunk_fuel_sizes].
    intros c Hc. unfold collate. simpl. now rewrite !length_map.
  - rewrite length_map, chunk_fuel_length by reflexivity.
    rewrite (Permutation_length Hg). f_equal. lia.
Qed.

(** *** Edge cases of [evaluate], [main], [initialize_model] and [train] *)

(** X3.  Over a validation loader that delivers no batch, [evaluate]
    never completes: when [f1_score] accepts the two empty lists, the F1
    line is printed and [correct / total] then raises
    [ZeroDivisionError]; otherwise the exception of [f1_score] ends the
    run.  Nothing is written to the log file in either case. *)
Theorem evaluate_empty_split (val_loader : DataLoader) (model : Model) (w : world) :
  fst (iter_loader val_loader (set_grad false w)) = Ok [] ->
  fst (evaluate val_loader model w)
  = match f1_score [] [] with
    | Ok _ => Raise ZeroDivisionError
    | Raise e => Raise e
    end /\
  trace (snd (evaluate val_loader model w))
  = trace w ++ match f1_score [] [] with
               | Ok f1 => [EPrint (f1_line f1)]
               | Raise _ => []
               end.
Proof.
  intros Hit. unfold evaluate, no_grad.
  destruct (iter_loader_ok val_loader (set_grad false w)) as (batches & w1 & Hrun & Ht & _).
  rewrite Hrun in Hit. cbn [fst] in Hit. injection Hit as ->.
  rewrite (@bind_run_ok _ _ _ _ _ _ _ Hrun).
  unfold report. unfold bind, lift, emit. cbn [evaluate_batches]. unfold ret.
  change (y_true eval_init) with (@nil Z). change (y_pred eval_init) with (@nil Z).
  destruct (f1_score [] []) as [f1|e]; cbn [fst snd eval_init correct total true_div Nat.eqb].
  - cbn [trace set_trace set_grad]. now rewrite Ht.
  - cbn [trace set_trace set_grad]. now rewrite Ht, app_nil_r.
Qed.

(** X4.  [main] can complete only if all three splits can be read,
    the training split, which it never uses, is not empty, the seventh
    entry of the backbone's classifier is a linear layer, and the
    validation split holds exactly one sample: with the batch size of 8
    that [main] fixes, any larger validation split makes its first batch
    a batch of several samples, and an empty one lets [evaluate] raise. *)
Theorem main_completes_only_on_one_sample (w : world) :
  is_ok (fst (main w)) = true ->
  exists tr te s i o wt,
    CelebA "train" = Ok tr /\ tr <> [] /\
    CelebA "test" = Ok te /\
    CelebA "valid" = Ok [s] /\
    nth_error (classifier vgg16_bn) 6 = Some (Linear i o wt).
Proof.
  rewrite main_unfolded.
  destruct (main_normal_form w) as [[u|e] w'] eqn:H; [intros _ | discriminate].
  unfold main_normal_form in H.
  step_ok H u1 Hu1. step_ok H tr Htr. step_ok H va Hva. step_ok H te Hte.
  step_ok H trl Htl. step_ok H u2 Hu2. step_ok H r Hr. step_ok H u3 Hu3.
  apply bind_ok in H as (model' & w2 & Hev & _).
  assert (Hhead : exists i o wt, nth_error (classifier vgg16_bn) 6 = Some (Linear i o wt)).
  { destruct (nth_error (classifier vgg16_bn) 6) as [[i o wt|m]|] eqn:H6; [eauto| |];
      match type of Hr with
      | initialize_model ?m0 ?lr ?n ?w0 = _ =>
          assert (Hno : is_ok (fst (initialize_model m0 lr n w0)) = false)
            by (apply initialize_model_raises; intros; rewrite H6; discriminate);
          rewrite Hr in Hno; discriminate Hno
      end. }
  destruct Hhead as (i & o & wt & H6).
  assert (Htrne : tr <> []).
  { intros ->. unfold new_DataLoader in Htl. discriminate Htl. }
  apply evaluate_ok in Hev as (batches & pairs & f1 & Hit & Hpairs & _ & Hpos & _).
  destruct (sample_pairs_single Hpairs) as [Hall _].
  unfold main_val_loader, iter_loader in Hit. cbn [shuffle dataset batch_size chunk fst] in Hit.
  injection Hit as <-.
  destruct va as [|s1 [|s2 rest]].
  - inversion Hpairs; subst. simpl in Hpos. lia.
  - exists tr, te, s1, i, o, wt. auto.
  - cbn in Hall. inversion Hall as [|b bs Hb _]. discriminate Hb.
Qed.

(** X5.  When [model.classifier[6]] is not a linear layer,
    [initialize_model] raises and changes nothing, not even the state of
    the random generator: [IndexError] when the classifier has fewer than
    seven entries, [AttributeError] when the seventh has no
    [in_features]. *)
Theorem initialize_model_errors (model : Model) (lr : float) (nc : nat) (w : world) :
  (forall i o wt, nth_error (classifier model) 6 <> Some (Linear i o wt)) ->
  initialize_model model lr nc w
  = (Raise (if length (classifier model) <=? 6 then IndexError else AttributeError), w).
Proof.
  intros H. unfold initialize_model, bind, lift, get_layer.
  destruct (nth_error (classifier model) 6) as [[i o wt|m]|] eqn:H6.
  - now destruct (H i o wt).
  - assert (Hlen : 6 < length (classifier model)).
    { apply nth_error_Some. rewrite H6. discriminate. }
    apply Nat.leb_gt in Hlen. now rewrite Hlen.
  - apply nth_error_None in H6. apply Nat.leb_le in H6. now rewrite H6.
Qed.

(** A run of [initialize_model] within its precondition, spelled out. *)
Lemma initialize_model_run (model : Model) (lr : float) (nc : nat) (w : world)
    (i o : nat) (wt : weights) :
  nth_error (classifier model) 6 = Some (Linear i o wt) ->
  initialize_model model lr nc w
  = (Ok (with_head model (Linear i nc (fst (linear_init (rng_state w) i nc))),
         CrossEntropyLoss,
         Adam (with_head model (Linear i nc (fst (linear_init (rng_state w) i nc)))) lr),
     set_rng (snd (linear_init (rng_state w) i nc)) w).
Proof.
  intros H6.
  assert (Hlen : 6 < length (classifier model)).
  { apply nth_error_Some. rewrite H6. discriminate. }
  unfold initialize_model, bind, lift, get_layer, new_Linear, set_layer, ret.
  rewrite H6. cbn [in_features_of].
  destruct (linear_init (rng_state w) i nc) as [wt' g].
  apply Nat.ltb_lt in Hlen. rewrite Hlen. reflexivity.
Qed.

Lemma replace_nth_twice {A} (k : nat) (x y : A) (l : list A) :
  replace_nth k x (replace_nth k y l) = replace_nth k x l.
Proof.
  revert k. induction l as [|h t IH]; intros [|k]; simpl; auto. now rewrite IH.
Qed.

(** X6.  Adapting an adapted model again succeeds and gives what a
    single adaptation with the second class count gives, up to the random
    numbers drawn: the input width of the head is still the original one,
    each optimizer is bound to the model returned with it, and nothing is
    printed or written. *)
Theorem initialize_model_twice (model : Model) (lr1 lr2 : float) (n1 n2 : nat)
    (w : world) (i o : nat) (wt : weights) :
  nth_error (classifier model) 6 = Some (Linear i o wt) ->
  exists m1 w1 m2 w2,
    initialize_model model lr1 n1 w = (Ok (m1, CrossEntropyLoss, Adam m1 lr1), w1) /\
    initialize_model m1 lr2 n2 w1 = (Ok (m2, CrossEntropyLoss, Adam m2 lr2), w2) /\
    m2 = with_head model (Linear i n2 (fst (linear_init (rng_state w1) i n2))) /\
    rng_state w1 = snd (linear_init (rng_state w) i n1) /\
    trace w2 = trace w.
Proof.
  intros H6.
  assert (Hlen : 6 < length (classifier model)).
  { apply nth_error_Some. rewrite H6. discriminate. }
  eexists _, _, _, _.
  split; [apply (initialize_model_run _ _ _ _ H6)|].
  split.
  - eapply initialize_model_run. unfold with_head. cbn [classifier].
    now apply nth_error_replace_nth_same.
  - unfold with_head. cbn [classifier features training set_rng rng_state trace].
    rewrite replace_nth_twice. auto.
Qed.

Lemma gather_nil (perm : list nat) : gather [] perm = [].
Proof.
  unfold gather. induction perm as [|[|i] perm IH]; simpl; auto.
Qed.

Lemma iter_loader_empty (dl : DataLoader) (w : world) :
  dataset dl = [] ->
  exists w1, iter_loader dl w = (Ok [], w1) /\ trace w1 = trace w.
Proof.
  intros Hds. unfold iter_loader. rewrite Hds.
  assert (Hchunk : chunk (batch_size dl) (@nil sample) = []) by now destruct (batch_size dl).
  destruct (shuffle dl).
  - destruct (randperm (rng_state w) (length (@nil sample))) as [perm g].
    rewrite gather_nil, Hchunk. eexists. split; reflexivity.
  - rewrite Hchunk. eexists. split; reflexivity.
Qed.

Lemma train_epochs_without_batches (dl : DataLoader)
    (criterion : outputs -> list Z -> result loss_t) (num_epochs : nat)
    (mo : Model * opt_state) (epochs : list nat) :
  dataset dl = [] ->
  forall w,
    fst (train_epochs dl criterion num_epochs epochs mo w) = Ok mo /\
    trace (snd (train_epochs dl criterion num_epochs epochs mo w))
    = trace w
      ++ map (fun e => ESavefig experiment_name ("epoch" ++ str (e + 1)) [] []) epochs.
Proof.
  intros Hds. induction epochs as [|epoch epochs IH]; intros w.
  - simpl. now rewrite app_nil_r.
  - cbn [train_epochs map].
    destruct (iter_loader_empty dl w Hds) as (w1 & Hit & Ht).
    assert (Hep : train_epoch dl criterion num_epochs epoch mo w
                  = (Ok mo, set_trace (trace w1 ++ [ESavefig experiment_name
                                        ("epoch" ++ str (epoch + 1)) [] []]) w1)).
    { unfold train_epoch. rewrite (@bind_run_ok _ _ _ _ _ _ _ Hit).
      destruct mo. reflexivity. }
    rewrite (@bind_run_ok _ _ _ _ _ _ _ Hep).
    destruct (IH (set_trace (trace w1 ++ [ESavefig experiment_name
                                ("epoch" ++ str (epoch + 1)) [] []]) w1)) as [IH1 IH2].
    split; [exact IH1|]. rewrite IH2. cbn [trace set_trace].
    now rewrite Ht, <- app_assoc.
Qed.

(** X7.  When there is nothing to train on, because the number of
    epochs is 0 or the training set is empty, [train] completes, returns
    the model and the optimizer it was given, saves one empty plot per
    epoch and writes a checkpoint of the unchanged parameters; no forward
    pass is made and nothing is logged. *)
Theorem train_without_batches (train_loader : DataLoader) (model : Model)
    (criterion : outputs -> list Z -> result loss_t) (optimizer : opt_state)
    (num_epochs : nat) (w : world) :
  num_epochs = 0 \/ dataset train_loader = [] ->
  fst (train train_loader model criterion optimizer num_epochs w) = Ok (model, optimizer) /\
  trace (snd (train train_loader model criterion optimizer num_epochs w))
  = trace w
    ++ map (fun e => ESavefig experiment_name ("epoch" ++ str (e + 1)) [] [])
           (seq 0 num_epochs)
    ++ [ECheckpoint (experiment_name ++ ".ckpt") (state_dict model)].
Proof.
  intros [-> | Hds].
  - split; [reflexivity|]. cbn. reflexivity.
  - destruct (@train_epochs_without_batches train_loader criterion num_epochs
                (model, optimizer) (seq 0 num_epochs) Hds w) as [H1 H2].
    unfold train, bind.
    destruct (train_epochs train_loader criterion num_epochs (seq 0 num_epochs)
                (model, optimizer) w) as [[mo|e] w1]; cbn [fst snd] in *; [|discriminate].
    injection H1 as ->. split; [reflexivity|].
    cbn [trace set_trace fst emit]. now rewrite H2, <- app_assoc.
Qed.

(** *** More on the training loop *)

Lemma multiples_of_100 (n : nat) :
  filter (fun s => s mod 100 =? 0) (seq 1 n)
  = map (fun k => 100 * (k + 1)) (seq 0 (n / 100)).
Proof.
  induction n as [|n IH]; [reflexivity|].
  rewrite seq_S, filter_app, IH. cbn [filter Nat.add].
  pose proof (Nat.div_mod_eq n 100) as Hn.
  pose proof (Nat.mod_upper_bound n 100 ltac:(lia)) as Hr.
  destruct (Nat.eq_dec (n mod 100) 99) as [H99 | H99].
  - assert (Hq : S n / 100 = S (n / 100)).
    { symmetry. apply (Nat.div_unique _ _ _ 0); lia. }
    assert (Hm : S n mod 100 = 0).
    { symmetry. apply (Nat.mod_unique _ _ (S (n / 100))); lia. }
    rewrite Hm, Hq, seq_S, map_app. cbn [Nat.eqb map Nat.add]. f_equal. f_equal. lia.
  - assert (Hq : S n / 100 = n / 100).
    { symmetry. apply (Nat.div_unique _ _ _ (S (n mod 100))); lia. }
    assert (Hm : S n mod 100 = S (n mod 100)).
    { symmetry. apply (Nat.mod_unique _ _ (n / 100)); lia. }
    rewrite Hm, Hq. cbn [Nat.eqb]. now rewrite app_nil_r.
Qed.

Lemma logged_steps (losses : list float) (i : nat) :
  map fst (logged i losses)
  = filter (fun s => s mod 100 =? 0) (seq (i + 1) (length losses)).
Proof.
  revert i. induction losses as [|l ls IH]; intros i; [reflexivity|].
  rewrite logged_cons. cbn [length seq filter].
  replace (S (i + 1)) with (S i + 1) by lia.
  destruct ((i + 1) mod 100 =? 0); cbn [map fst]; now rewrite IH.
Qed.

(** X8.  In a completed epoch over n batches, the steps recorded for
    the plot are exactly 100, 200, ..., 100 * (n / 100), in this order,
    each with one loss, and as many progress lines are printed; an epoch
    of fewer than 100 batches logs nothing and plots two empty lists. *)
Theorem train_epoch_logs_multiples_of_100
    (train_loader : DataLoader) (criterion : outputs -> list Z -> result loss_t)
    (num_epochs epoch : nat) (mo mo' : Model * opt_state) (w w' : world) :
  train_epoch train_loader criterion num_epochs epoch mo w = (Ok mo', w') ->
  exists batches evs losses,
    fst (iter_loader train_loader w) = Ok batches /\
    trace w' = trace w ++ evs
      ++ [ESavefig experiment_name ("epoch" ++ str (epoch + 1))
            (map (fun k => 100 * (k + 1)) (seq 0 (length batches / 100))) losses] /\
    length losses = length batches / 100 /\
    length (console evs) = length batches / 100 /\
    length (appended log_file evs) = length batches / 100.
Proof.
  intros H.
  apply train_epoch_ok in H as (batches & losses & evs & Hit & Hls & _ & Htr & Hcon & Happ).
  pose proof (logged_steps losses 0) as Hsteps. cbn [Nat.add] in Hsteps.
  rewrite multiples_of_100, (eq_sym (Forall2_length Hls)) in Hsteps.
  assert (Hn : length (logged 0 losses) = length batches / 100).
  { rewrite <- (length_map fst), Hsteps, length_map, length_seq. reflexivity. }
  exists batches, evs, (map snd (logged 0 losses)).
  rewrite <- Hsteps. repeat split; auto.
  - now rewrite length_map.
  - rewrite Hcon. unfold progress_lines. now rewrite length_map.
  - rewrite Happ. unfold progress_lines. now rewrite length_map.
Qed.

Lemma batch_events_no_plots (evs : list event) :
  forallb batch_event evs = true -> plots evs = [].
Proof.
  induction evs as [|e evs IH]; simpl; [reflexivity|].
  intros [He Hall]%andb_prop. apply andb_prop in He as [_ He].
  rewrite (IH Hall). destruct e; try reflexivity. discriminate He.
Qed.

Lemma plots_app (a b : list event) : plots (a ++ b) = plots a ++ plots b.
Proof. apply flat_map_app. Qed.

Lemma train_epochs_plots (train_loader : DataLoader)
    (criterion : outputs -> list Z -> result loss_t) (num_epochs : nat)
    (epochs : list nat) :
  forall (mo mo' : Model * opt_state) (w w' : world),
  train_epochs train_loader criterion num_epochs epochs mo w = (Ok mo', w') ->
  exists evs,
    trace w' = trace w ++ evs /\
    plots evs = map (fun e => (experiment_name, ("epoch" ++ str (e + 1))%string)) epochs.
Proof.
  induction epochs as [|epoch epochs IH]; intros mo mo' w w' H; simpl in H.
  - unfold ret in H. injection H as <- <-. exists []. now rewrite app_nil_r.
  - apply bind_ok in H as (mo1 & w1 & He & H).
    apply train_epoch_ok in He as (bs1 & ls1 & evs1 & _ & _ & Hall1 & Htr1 & _).
    apply IH in H as (evs2 & Htr2 & Hplots).
    eexists. split; [rewrite Htr2, Htr1, <- !app_assoc; reflexivity|].
    rewrite !plots_app, (batch_events_no_plots _ Hall1), Hplots. reflexivity.
Qed.

(** X9.  A completed run of [train] saves one plot per epoch, all under
    the same path, the experiment name, so that each epoch overwrites the
    plot of the one before; the titles are epoch1, epoch2, ... in order. *)
Theorem train_plots_overwrite
    (train_loader : DataLoader) (model : Model)
    (criterion : outputs -> list Z -> result loss_t) (optimizer : opt_state)
    (num_epochs : nat) (mo : Model * opt_state) (w w' : world) :
  train train_loader model criterion optimizer num_epochs w = (Ok mo, w') ->
  exists evs,
    trace w' = trace w ++ evs /\
    plots evs
    = map (fun e => (experiment_name, ("epoch" ++ str (e + 1))%string)) (seq 0 num_epochs).
Proof.
  unfold train. intros H.
  apply bind_ok in H as (mo1 & w1 & He & H).
  apply train_epochs_plots in He as (evs & Htr & Hplots).
  step_ok H u Hu. unfold ret in H. injection H as <- <-.
  eexists. split; [cbn [trace set_trace]; rewrite Htr, <- app_assoc; reflexivity|].
  rewrite plots_app, Hplots. cbn. now rewrite app_nil_r.
Qed.

(** The events of one completed training step. *)
Lemma train_batch_events (criterion : outputs -> list Z -> result loss_t)
    (epoch num_epochs n i : nat) (b : batch) (st st' : train_state) (w w' : world) :
  train_batch criterion epoch num_epochs n i b st w = (Ok st', w') ->
  grad_enabled w = true /\
  exists logs,
    trace w' = trace w ++ EForward (training (ts_model st)) true :: EOptimStep :: logs /\
    filter is_forward logs = [] /\ filter is_optim_step logs = [].
Proof.
  unfold train_batch. intros H.
  step_ok H label Hlabel. step_ok H cov Hcov. step_ok H outs Hfwd.
  step_ok H loss Hloss. step_ok H g Hg. step_ok H mo Hmo.
  destruct mo as [model' optimizer'].
  unfold call_model in Hfwd.
  destruct (forward (ts_model st) (images b) (rng_state w)) as [r gen] eqn:Hf.
  injection Hfwd as -> <-.
  unfold loss_backward in Hg. cbn [grad_enabled set_rng set_trace] in Hg.
  destruct (grad_enabled w) eqn:Hgrad; [|discriminate].
  injection Hg as <- <-. split; [reflexivity|].
  destruct ((i + 1) mod 100 =? 0).
  - step_ok H u1 Hu1. step_ok H u2 Hu2. step_ok H u3 Hu3.
    unfold ret in H. injection H as <- <-.
    eexists. cbn [trace set_trace set_rng grad_enabled rng_state].
    split; [rewrite <- !app_assoc; reflexivity|]. split; reflexivity.
  - unfold ret in H. injection H as <- <-.
    exists []. cbn [trace set_trace set_rng grad_enabled rng_state].
    split; [rewrite <- !app_assoc; reflexivity|]. split; reflexivity.
Qed.

Lemma train_batches_counts (criterion : outputs -> list Z -> result loss_t)
    (epoch num_epochs n : nat) (bs : list batch) :
  forall (i : nat) (st st' : train_state) (w w' : world),
  train_batches criterion epoch num_epochs n i bs st w = (Ok st', w') ->
  exists evs,
    trace w' = trace w ++ evs /\
    length (filter is_forward evs) = length bs /\
    length (filter is_optim_step evs) = length bs /\
    forallb (fun e => match e with EForward _ g => g | _ => true end) evs = true.
Proof.
  induction bs as [|b bs IH]; intros i st st' w w' H; simpl in H.
  - unfold ret in H. injection H as <- <-. exists []. now rewrite app_nil_r.
  - apply bind_ok in H as (st1 & w1 & Hb & H).
    pose proof Hb as Hmode.
    apply train_batch_ok in Hmode as (loss & evs0 & _ & Htr0 & _).
    apply train_batch_events in Hb as (Hg & logs & Htr1 & Hf & Ho).
    apply IH in H as (evs2 & Htr2 & Hf2 & Ho2 & Hg2).
    exists ((EForward (training (ts_model st)) true :: EOptimStep :: logs) ++ evs2).
    split; [rewrite Htr2, Htr1, <- app_assoc; reflexivity|].
    rewrite !filter_app, !length_app, forallb_app. cbn [filter is_forward is_optim_step].
    rewrite Hf, Ho, Hf2, Ho2, Hg2. cbn [length app forallb andb].
    repeat split; auto.
    rewrite andb_true_r. clear - Hf.
    induction logs as [|e logs IHl]; [reflexivity|].
    cbn [filter] in Hf. destruct e; cbn [is_forward] in Hf; try discriminate;
      cbn [forallb andb]; auto.
Qed.

(** X10.  In a completed epoch every batch delivered goes through
    exactly one forward pass and one optimizer step, and every forward
    pass is made with gradient tracking switched on: no batch is skipped
    and no gradient is accumulated over several batches. *)
Theorem train_epoch_one_step_per_batch
    (train_loader : DataLoader) (criterion : outputs -> list Z -> result loss_t)
    (num_epochs epoch : nat) (mo mo' : Model * opt_state) (w w' : world) :
  train_epoch train_loader criterion num_epochs epoch mo w = (Ok mo', w') ->
  exists batches evs,
    fst (iter_loader train_loader w) = Ok batches /\
    trace w' = trace w ++ evs /\
    length (filter is_forward evs) = length batches /\
    length (filter is_optim_step evs) = length batches /\
    forallb (fun e => match e with EForward _ g => g | _ => true end) evs = true.
Proof.
  unfold train_epoch. intros H.
  destruct (iter_loader_ok train_loader w) as (batches & w1 & Hit & Ht1 & Hg1).
  apply bind_ok in H as (batches' & w1' & Hit' & H).
  rewrite Hit in Hit'. injection Hit' as <- <-.
  apply bind_ok in H as (st' & w2 & Hloop & H).
  unfold make_plots in H. step_ok H u Hu. unfold ret in H. injection H as <- <-.
  apply train_batches_counts in Hloop as (evs & Htr & Hf & Ho & Hg).
  exists batches. eexists. rewrite Hit. split; [reflexivity|].
  split; [cbn [trace set_trace]; rewrite Htr, Ht1, <- app_assoc; reflexivity|].
  rewrite !filter_app, !length_app, forallb_app, Hf, Ho, Hg. cbn. auto.
Qed.

(** *** The log file during training *)

Lemma produces_ret {A} (P : list event -> Prop) (a : A) :
  P [] -> produces P (ret a).
Proof. intros H w. exists []. simpl. now rewrite app_nil_r. Qed.

Lemma produces_lift {A} (P : list event -> Prop) (r : result A) :
  P [] -> produces P (lift r).
Proof. intros H w. exists []. simpl. now rewrite app_nil_r. Qed.

Lemma produces_emit (P : list event -> Prop) (e : event) :
  P [e] -> produces P (emit e).
Proof. intros He w. exists [e]. auto. Qed.

Lemma produces_bind {A B} (P : list event -> Prop) (m : M A) (k : A -> M B) :
  (forall a b, P a -> P b -> P (a ++ b)) ->
  produces P m -> (forall a, produces P (k a)) -> produces P (bind m k).
Proof.
  intros P_app Hm Hk w. unfold bind.
  destruct (Hm w) as (evs1 & Ht1 & HP1).
  destruct (m w) as [[a|e] w1]; simpl in *.
  - destruct (Hk a w1) as (evs2 & Ht2 & HP2).
    exists (evs1 ++ evs2). rewrite Ht2, Ht1, app_assoc. auto.
  - exists evs1. auto.
Qed.

Lemma produces_call_model (P : list event -> Prop) (model : Model) (imgs : list image) :
  (forall tr g, P [EForward tr g]) -> produces P (call_model model imgs).
Proof.
  intros He w. unfold call_model.
  destruct (forward model imgs (rng_state w)) as [r g]. simpl.
  exists [EForward (training model) (grad_enabled w)]. auto.
Qed.

Lemma produces_loss_backward (P : list event -> Prop) (loss : loss_t) :
  P [] -> produces P (loss_backward loss).
Proof.
  intros H w. unfold loss_backward. exists [].
  destruct (grad_enabled w); simpl; now rewrite app_nil_r.
Qed.

Lemma produces_iter_loader (P : list event -> Prop) (dl : DataLoader) :
  P [] -> produces P (iter_loader dl).
Proof.
  intros H w. destruct (iter_loader_ok dl w) as (bs & w1 & -> & Ht & _).
  exists []. simpl. now rewrite app_nil_r.
Qed.

Lemma mirrored_app (a b : list event) : mirrored a -> mirrored b -> mirrored (a ++ b).
Proof.
  unfold mirrored. intros Ha Hb. now rewrite appended_app, console_app, Ha, Hb.
Qed.

Ltac mirrored_step :=
  first [ apply produces_ret; reflexivity
        | apply produces_lift; reflexivity
        | apply produces_loss_backward; reflexivity
        | apply produces_iter_loader; reflexivity
        | apply produces_emit; reflexivity
        | apply produces_call_model; reflexivity
        | apply produces_bind; [exact mirrored_app | | intros ?] ].

Lemma produces_train_batch (criterion : outputs -> list Z -> result loss_t)
    (epoch num_epochs n i : nat) (b : batch) (st : train_state) :
  produces mirrored (train_batch criterion epoch num_epochs n i b st).
Proof.
  unfold train_batch, optimizer_step. repeat mirrored_step.
  match goal with |- produces _ (let (_, _) := ?x in _) => destruct x as [model' optimizer'] end.
  destruct ((i + 1) mod 100 =? 0).
  - intros w. eexists [EPrint _; EOpen _; EAppend _ _]. split.
    + cbn. rewrite <- !app_assoc. reflexivity.
    + reflexivity.
  - apply produces_ret. reflexivity.
Qed.

Lemma produces_train_epochs (train_loader : DataLoader)
    (criterion : outputs -> list Z -> result loss_t) (num_epochs : nat)
    (epochs : list nat) :
  forall mo, produces mirrored (train_epochs train_loader criterion num_epochs epochs mo).
Proof.
  assert (Hloop : forall epoch bs i st,
             produces mirrored
               (train_batches criterion epoch num_epochs (len train_loader) i bs st)).
  { intros epoch bs. induction bs as [|b bs IH]; intros i st; simpl.
    - apply produces_ret. reflexivity.
    - apply produces_bind; [exact mirrored_app
                           | apply produces_train_batch | intros st'; apply IH]. }
  induction epochs as [|epoch epochs IH]; intros mo; simpl.
  - apply produces_ret. reflexivity.
  - apply produces_bind; [exact mirrored_app | | intros mo'; apply IH].
    unfold train_epoch, make_plots.
    apply produces_bind; [exact mirrored_app
                         | apply produces_iter_loader; reflexivity | intros bs].
    apply produces_bind; [exact mirrored_app | apply Hloop | intros st'].
    repeat mirrored_step.
Qed.

(** X11.  In a completed run of [train] the lines appended to the log
    file are the lines printed on the console, in the same order: the
    file mirrors the console. *)
Theorem train_log_mirrors_console
    (train_loader : DataLoader) (model : Model)
    (criterion : outputs -> list Z -> result loss_t) (optimizer : opt_state)
    (num_epochs : nat) (mo : Model * opt_state) (w w' : world) :
  train train_loader model criterion optimizer num_epochs w = (Ok mo, w') ->
  exists evs,
    trace w' = trace w ++ evs /\
    appended (experiment_name ++ ".txt") evs = console evs.
Proof.
  intros Hrun.
  assert (H : produces mirrored (train train_loader model criterion optimizer num_epochs)).
  { unfold train.
    apply produces_bind; [exact mirrored_app
                         | apply produces_train_epochs | intros mo0].
    repeat mirrored_step. }
  destruct (H w) as (evs & Htr & Hm). rewrite Hrun in Htr. exists evs. auto.
Qed.

(** *** Label tensors that are too narrow *)

Lemma select_col_ok (k : nat) (l : list (list Z)) :
  Forall (fun row => k < length row) l -> exists col, select_col k l = Ok col.
Proof.
  unfold select_col. induction 1 as [|row l Hrow _ [col IH]]; simpl; [eauto|].
  destruct (nth_error row k) as [v|] eqn:Hv.
  - rewrite IH. simpl. eauto.
  - apply nth_error_None in Hv. lia.
Qed.

Lemma select_col_short (k : nat) (row : list Z) (rest : list (list Z)) :
  length row <= k -> select_col k (row :: rest) = Raise IndexError.
Proof.
  intros Hlen. unfold select_col. simpl.
  apply nth_error_None in Hlen. now rewrite Hlen.
Qed.

(** X12.  Both loops read column 20 of the label tensor although they
    use column 2 only: on a non-empty batch whose attribute vectors have
    between 3 and 20 entries, the training step and the evaluation step
    each raise [IndexError] before any forward pass, leaving the world
    untouched. *)
Theorem narrow_labels_raise
    (criterion : outputs -> list Z -> result loss_t) (epoch num_epochs n i : nat)
    (model : Model) (b : batch) (tst : train_state) (est : eval_state) (w : world) :
  labels b <> [] ->
  Forall (fun row => 3 <= length row <= 20) (labels b) ->
  train_batch criterion epoch num_epochs n i b tst w = (Raise IndexError, w) /\
  evaluate_batch model b est w = (Raise IndexError, w).
Proof.
  intros Hne Hall.
  destruct (@select_col_ok 2 (labels b)) as [label Hlabel].
  { eapply Forall_impl; [|exact Hall]. simpl. intros; lia. }
  assert (Hcov : select_col 20 (labels b) = Raise IndexError).
  { destruct (labels b) as [|row rest]; [congruence|].
    apply select_col_short. inversion Hall; subst. lia. }
  unfold train_batch, evaluate_batch, bind, lift. now rewrite Hlabel, Hcov.
Qed.

(** *** The remapping on data that is already remapped *)

(** X13.  On the values 0 and 1 the remapping [(v + 1) // 2] is the
    identity, and it sends -1 to 0; so remapping a covariate that was
    already mapped from {-1, 1} to {0, 1} changes nothing: the remapping
    is idempotent on {-1, 0, 1}. *)
Theorem remap_cov_idempotent (v : Z) :
  v = (-1)%Z \/ v = 0%Z \/ v = 1%Z ->
  remap_cov v = (if Z.eqb v (-1) then 0%Z else v) /\
  remap_cov (remap_cov v) = remap_cov v.
Proof.
  intros [-> | [-> | ->]]; split; reflexivity.
Qed.

(** *** When [evaluate] completes *)

Lemma evaluate_batch_total (model : Model) (b : batch) (st : eval_state) (w : world) :
  (exists row, labels b = [row] /\ 21 <= length row) ->
  (forall r, exists outs r' x xs,
      forward model (images b) r = (Ok outs, r') /\ data outs = [x :: xs]) ->
  exists st' w',
    evaluate_batch model b st w = (Ok st', w') /\ total st' = total st + 1.
Proof.
  intros (row & Hrow & Hlen) Hfwd.
  destruct (Hfwd (rng_state w)) as (outs & r' & x & xs & Hf & Hdata).
  destruct (nth_error row 2) as [v2|] eqn:H2;
    [|apply nth_error_None in H2; lia].
  destruct (nth_error row 20) as [v20|] eqn:H20;
    [|apply nth_error_None in H20; lia].
  unfold evaluate_batch, bind, lift, call_model, select_col, max_dim1.
  rewrite Hrow. cbn [mapR rbind]. rewrite H2, H20. cbn [rbind].
  rewrite Hf, Hdata. cbn [mapR rbind argmax item]. rewrite tensor_eq_single.
  eexists _, _. split; [reflexivity|]. reflexivity.
Qed.

(** X14.  [evaluate] completes whenever the validation loader delivers
    at least one batch, every batch is a single sample with at least 21
    attributes, the forward pass succeeds on every batch with one
    non-empty row of logits, and [f1_score] accepts the labels and
    predictions of these samples. *)
Theorem evaluate_completes
    (val_loader : DataLoader) (model : Model) (w : world) (batches : list batch) :
  fst (iter_loader val_loader (set_grad false w)) = Ok batches ->
  batches <> [] ->
  Forall (fun b => exists row, labels b = [row] /\ 21 <= length row) batches ->
  (forall b r, In b batches ->
     exists outs r' x xs,
       forward (eval_mode model) (images b) r = (Ok outs, r') /\ data outs = [x :: xs]) ->
  (forall pairs, Forall2 (sample_pair (eval_mode model)) batches pairs ->
     is_ok (f1_score (map fst pairs) (map snd pairs)) = true) ->
  fst (evaluate val_loader model w) = Ok (eval_mode model).
Proof.
  intros Hit Hne Hrows Hfwd Hf1.
  assert (Hloop : forall bs st w0,
             Forall (fun b => exists row, labels b = [row] /\ 21 <= length row) bs ->
             (forall b, In b bs -> In b batches) ->
             exists st' w',
               evaluate_batches (eval_mode model) bs st w0 = (Ok st', w') /\
               total st' = total st + length bs).
  { induction bs as [|b bs IH]; intros st w0 Hb Hin; simpl.
    - eexists _, _. split; [reflexivity | lia].
    - inversion Hb as [|? ? Hb1 Hb2]; subst.
      destruct (@evaluate_batch_total (eval_mode model) b st w0 Hb1) as (st1 & w1 & Hrun & Ht1).
      { intros r. apply Hfwd. apply Hin. now left. }
      destruct (IH st1 w1 Hb2) as (st' & w' & Hrun' & Ht').
      { intros b' Hb'. apply Hin. now right. }
      exists st', w'. rewrite (@bind_run_ok _ _ _ _ _ _ _ Hrun). split; [exact Hrun' | lia]. }
  unfold evaluate, no_grad.
  destruct (iter_loader_ok val_loader (set_grad false w)) as (bs & w1 & Hrun & _ & _).
  rewrite Hrun in Hit. cbn [fst] in Hit. injection Hit as ->.
  destruct (Hloop batches eval_init w1 Hrows (fun b H => H)) as (st' & w2 & Hrun2 & Htot).
  rewrite (@bind_run_ok _ _ _ _ _ _ _ Hrun), (@bind_run_ok _ _ _ _ _ _ _ Hrun2).
  assert (Hpos : total st' <> 0).
  { destruct batches; [congruence | simpl in Htot; lia]. }
  apply evaluate_batches_ok in Hrun2 as (pairs & Hpairs & Hyt & Hyp & _).
  specialize (Hf1 pairs Hpairs). cbn [eval_init y_true y_pred app] in Hyt, Hyp.
  unfold report. unfold bind, lift, emit, ret, true_div.
  rewrite Hyt, Hyp.
  destruct (f1_score (map fst pairs) (map snd pairs)) as [f1|e]; [|discriminate].
  apply Nat.eqb_neq in Hpos. rewrite Hpos. reflexivity.
Qed.

(** *** The F1 score of a completed evaluation *)

(** X16.  When [evaluate] completes, every batch was a single sample
    and went through one forward pass in inference mode, all of them
    before anything was printed, and the F1 score printed is [f1_score]
    applied to the labels and to the predictions of the samples, one pair
    per sample, in the order of delivery. *)
Theorem evaluate_f1_over_pairs
    (val_loader : DataLoader) (model model' : Model) (w w' : world) :
  evaluate val_loader model w = (Ok model', w') ->
  exists batches pairs f1 evs,
    fst (iter_loader val_loader (set_grad false w)) = Ok batches /\
    Forall2 (sample_pair (eval_mode model)) batches pairs /\
    f1_score (map fst pairs) (map snd pairs) = Ok f1 /\
    trace w' = trace w ++ repeat (EForward false false) (length batches) ++ evs /\
    filter is_forward evs = [] /\
    hd_error (console evs) = Some (f1_line f1).
Proof.
  intros H.
  apply evaluate_ok in H as (batches & pairs & f1 & Hit & Hpairs & Hf1 & _ & _ & _ & Htr).
  exists batches, pairs, f1. eexists. repeat split; eauto.
Qed.

End Proofs.

(** ** The script at work on the small library *)

#[local] Existing Instance Toy.types.
#[local] Existing Instance Toy.lib3.

(** A complete evaluation: three forward passes in inference mode, two
    of three predictions right, and a log file that receives the accuracy
    but not the F1 score. *)
Example evaluate_val3 :
  evaluate Toy.val3 Toy.toy_vgg Toy.w0
  = (Ok (eval_mode Toy.toy_vgg),
     {| trace := [EForward false false; EForward false false; EForward false false;
                  EPrint "F1 Score: 2"; EPrint "Validation accuracy: 66";
                  EOpen "vgg16_bn_8.txt"; EPrint "F1 Score: 2";
                  EAppend "vgg16_bn_8.txt" "Validation accuracy: 66"];
        grad_enabled := true; rng_state := 0 |}).
Proof. reflexivity. Qed.

(** Two samples in one batch: [label.item()] raises after the first
    forward pass, and nothing is reported. *)
Example evaluate_val_pair :
  evaluate Toy.val_pair Toy.toy_vgg Toy.w0
  = (Raise ValueError,
     {| trace := [EForward false false]; grad_enabled := true; rng_state := 0 |}).
Proof. reflexivity. Qed.

(** [main] over a validation split of three samples raises in its first
    batch; over a split of one sample it completes. *)
Example main_three :
  main Toy.w0
  = (Raise ValueError,
     {| trace := [EPrint "Loading data..."; EPrint "Initializing model...";
                  EPrint ("Start evaluating... " ++ newline); EForward false false];
        grad_enabled := true; rng_state := 1 |}).
Proof. reflexivity. Qed.

Example main_one :
  fst (@main Toy.types (Toy.lib (firstn 1 Toy.three)) Toy.w0) = Ok tt.
Proof. reflexivity. Qed.

(** Two epochs over three batches: a plot per epoch, then the checkpoint. *)
Example train_val3 :
  filter (fun e => is_savefig e || is_checkpoint e)
         (trace (snd (train Toy.val3 Toy.toy_vgg CrossEntropyLoss 0 2 Toy.w0)))
  = [ESavefig "vgg16_bn_8" "epoch1" [] [];
     ESavefig "vgg16_bn_8" "epoch2" [] [];
     ECheckpoint "vgg16_bn_8.ckpt" (7, classifier Toy.toy_vgg)].
Proof. reflexivity. Qed.

(** One epoch over 250 batches: steps 100 and 200 are logged. *)
Example train_250 :
  let w' := snd (train Toy.train250 Toy.toy_vgg CrossEntropyLoss 0 1 Toy.w0) in
  console (trace w')
  = ["Epoch: [1/1], Step[100/250], Loss:8"; "Epoch: [1/1], Step[200/250], Loss:8"] /\
  appended log_file (trace w') = console (trace w') /\
  filter is_savefig (trace w') = [ESavefig "vgg16_bn_8" "epoch1" [100; 200] [8%Z; 8%Z]].
Proof. vm_compute. auto. Qed.

(** *** The theorems at concrete inputs *)

Lemma initialize_model_replaces_final_layer_witness :
  exists model' optimizer w',
    initialize_model Toy.toy_vgg 0%Z 2 Toy.w0 = (Ok (model', CrossEntropyLoss, optimizer), w') /\
    nth_error (classifier model') 6
      = Some (Linear 8 2 (fst (linear_init (rng_state Toy.w0) 8 2))) /\
    (forall k, k <> 6 ->
       nth_error (classifier model') k = nth_error (classifier Toy.toy_vgg) k) /\
    classifier model'
      = firstn 6 (classifier Toy.toy_vgg)
        ++ Linear 8 2 (fst (linear_init (rng_state Toy.w0) 8 2))
        :: skipn 7 (classifier Toy.toy_vgg) /\
    features model' = features Toy.toy_vgg /\
    training model' = training Toy.toy_vgg /\
    trace w' = trace Toy.w0.
Proof.
  apply (@initialize_model_replaces_final_layer Toy.types Toy.lib3
           Toy.toy_vgg 0%Z 2 Toy.w0 8 1000 2).
  reflexivity.
Defined.

Lemma evaluate_accuracy_witness :
  exists batches pairs evs,
    fst (iter_loader Toy.val3 (set_grad false Toy.w0)) = Ok batches /\
    Forall2 (sample_pair (eval_mode Toy.toy_vgg)) batches pairs /\
    let hits := count_matches (map fst pairs) (map snd pairs) in
    let samples := length (concat (map labels batches)) in
    let accuracy := Qmake (Z.of_nat hits) (Pos.of_nat samples) in
    let line := ("Validation accuracy: " ++ fmt (float_of_Q accuracy))%string in
    samples = length pairs /\
    trace (snd (evaluate Toy.val3 Toy.toy_vgg Toy.w0)) = trace Toy.w0 ++ evs /\
    In line (console evs) /\
    appended (experiment_name ++ ".txt") evs = [line] /\
    hits <= samples /\ 0 < samples /\
    (0 <= accuracy <= 1)%Q.
Proof.
  apply (@evaluate_accuracy Toy.types Toy.lib3 Toy.val3 Toy.toy_vgg
           (eval_mode Toy.toy_vgg) Toy.w0).
  reflexivity.
Defined.

Lemma evaluate_reports_no_accuracy_witness :
  exists e evs,
    fst (evaluate Toy.val_pair Toy.toy_vgg Toy.w0) = Raise e /\
    trace (snd (evaluate Toy.val_pair Toy.toy_vgg Toy.w0)) = trace Toy.w0 ++ evs /\
    console evs = [] /\
    appended (experiment_name ++ ".txt") evs = [].
Proof.
  apply (@evaluate_reports_no_accuracy Toy.types Toy.lib3 Toy.val_pair Toy.toy_vgg Toy.w0
           [collate (dataset Toy.val_pair)]).
  - reflexivity.
  - apply Exists_cons_hd. simpl. lia.
Defined.

Lemma evaluate_log_lacks_f1_witness :
  exists evs f1 acc,
    trace (snd (evaluate Toy.val3 Toy.toy_vgg Toy.w0)) = trace Toy.w0 ++ evs /\
    console evs = [f1_line f1; accuracy_line acc; f1_line f1] /\
    appended log_file evs = [accuracy_line acc] /\
    ~ In (f1_line f1) (appended log_file evs).
Proof.
  apply (@evaluate_log_lacks_f1 Toy.types Toy.lib3 Toy.val3 Toy.toy_vgg
           (eval_mode Toy.toy_vgg) Toy.w0).
  reflexivity.
Defined.

Lemma evaluate_raises_on_batch_witness :
  is_ok (fst (evaluate Toy.val_pair Toy.toy_vgg Toy.w0)) = false.
Proof.
  apply (@evaluate_raises_on_batch Toy.types Toy.lib3 Toy.val_pair Toy.toy_vgg Toy.w0
           [collate (dataset Toy.val_pair)]).
  - reflexivity.
  - apply Exists_cons_hd. simpl. lia.
Defined.

Lemma train_logs_every_100th_witness :
  exists batches losses evs,
    fst (iter_loader Toy.train250 Toy.w0) = Ok batches /\
    Forall2 (batch_loss CrossEntropyLoss) batches losses /\
    let rec := logged 0 losses in
    let line := fun p : nat * float =>
      ("Epoch: [" ++ str (0 + 1) ++ "/" ++ str 1 ++ "], Step["
       ++ str (fst p) ++ "/" ++ str (len Toy.train250) ++ "], Loss:"
       ++ fmt4 (snd p))%string in
    (forall step loss,
        In (step, loss) rec <->
        exists i, step = i + 1 /\ nth_error losses i = Some loss /\ (i + 1) mod 100 = 0) /\
    trace (snd (train_epoch Toy.train250 CrossEntropyLoss 1 0 (Toy.toy_vgg, 0) Toy.w0))
    = trace Toy.w0 ++ evs
      ++ [ESavefig experiment_name ("epoch" ++ str (0 + 1)) (map fst rec) (map snd rec)] /\
    console evs = map line rec /\
    appended (experiment_name ++ ".txt") evs = map line rec /\
    (forall a b, str a = str b -> a = b).
Proof.
  apply (@train_logs_every_100th Toy.types Toy.lib3 Toy.train250 CrossEntropyLoss 1 0
           (Toy.toy_vgg, 0)
           (@Build_Model Toy.types 251 (classifier Toy.toy_vgg) true, 250)
           Toy.w0).
  vm_compute. reflexivity.
Defined.

Lemma covariate_has_no_influence_witness :
  train Toy.val3 Toy.toy_vgg CrossEntropyLoss 0 2 Toy.w0
  = train Toy.val3' Toy.toy_vgg CrossEntropyLoss 0 2 Toy.w0 /\
  evaluate Toy.val3 Toy.toy_vgg Toy.w0 = evaluate Toy.val3' Toy.toy_vgg Toy.w0.
Proof.
  apply (@covariate_has_no_influence Toy.types Toy.lib3 Toy.val3 Toy.val3' Toy.toy_vgg
           CrossEntropyLoss 0 2 Toy.w0).
  repeat split; repeat constructor; try reflexivity;
    (intros k Hk; do 20 (destruct k as [|k]; [reflexivity|]);
     destruct k as [|k]; [congruence | reflexivity]).
Defined.

(** *** Further theorems at concrete inputs *)

Lemma shuffled_loader_permutes_witness :
  exists batches,
    fst (iter_loader Toy.train5 Toy.w0) = Ok batches /\
    Permutation (concat (map batch_samples batches)) (dataset Toy.train5) /\
    well_batched (batch_size Toy.train5) (len Toy.train5) batches /\
    trace (snd (iter_loader Toy.train5 Toy.w0)) = trace Toy.w0 /\
    rng_state (snd (iter_loader Toy.train5 Toy.w0))
    = snd (randperm (rng_state Toy.w0) (length (dataset Toy.train5))).
Proof.
  apply (@shuffled_loader_permutes Toy.types Toy.lib3 Toy.train5 Toy.w0).
  - intros r n. apply Permutation_sym, Permutation_rev.
  - reflexivity.
  - simpl. lia.
Defined.

Lemma evaluate_empty_split_witness :
  fst (evaluate Toy.val_empty Toy.toy_vgg Toy.w0)
  = match f1_score [] [] with
    | Ok _ => Raise ZeroDivisionError
    | Raise e => Raise e
    end /\
  trace (snd (evaluate Toy.val_empty Toy.toy_vgg Toy.w0))
  = trace Toy.w0 ++ match f1_score [] [] with
                    | Ok f1 => [EPrint (f1_line f1)]
                    | Raise _ => []
                    end.
Proof.
  apply (@evaluate_empty_split Toy.types Toy.lib3 Toy.val_empty Toy.toy_vgg Toy.w0).
  reflexivity.
Defined.

Lemma main_completes_only_on_one_sample_witness :
  exists tr te s i o wt,
    @CelebA Toy.types (Toy.lib (firstn 1 Toy.three)) "train" = Ok tr /\ tr <> [] /\
    @CelebA Toy.types (Toy.lib (firstn 1 Toy.three)) "test" = Ok te /\
    @CelebA Toy.types (Toy.lib (firstn 1 Toy.three)) "valid" = Ok [s] /\
    nth_error (classifier (@vgg16_bn Toy.types (Toy.lib (firstn 1 Toy.three)))) 6
    = Some (Linear i o wt).
Proof.
  apply (@main_completes_only_on_one_sample Toy.types (Toy.lib (firstn 1 Toy.three)) Toy.w0).
  reflexivity.
Defined.

Lemma initialize_model_errors_witness :
  initialize_model Toy.toy_short 0%Z 2 Toy.w0 = (Raise IndexError, Toy.w0) /\
  initialize_model Toy.toy_relu_head 0%Z 2 Toy.w0 = (Raise AttributeError, Toy.w0).
Proof.
  split.
  - apply (@initialize_model_errors Toy.types Toy.lib3 Toy.toy_short 0%Z 2 Toy.w0).
    intros i o wt. simpl. discriminate.
  - apply (@initialize_model_errors Toy.types Toy.lib3 Toy.toy_relu_head 0%Z 2 Toy.w0).
    intros i o wt. simpl. discriminate.
Defined.

Lemma initialize_model_twice_witness :
  exists m1 w1 m2 w2,
    initialize_model Toy.toy_vgg 0%Z 2 Toy.w0 = (Ok (m1, CrossEntropyLoss, Adam m1 0%Z), w1) /\
    initialize_model m1 1%Z 5 w1 = (Ok (m2, CrossEntropyLoss, Adam m2 1%Z), w2) /\
    m2 = with_head Toy.toy_vgg (Linear 8 5 (fst (linear_init (rng_state w1) 8 5))) /\
    rng_state w1 = snd (linear_init (rng_state Toy.w0) 8 2) /\
    trace w2 = trace Toy.w0.
Proof.
  apply (@initialize_model_twice Toy.types Toy.lib3 Toy.toy_vgg 0%Z 1%Z 2 5 Toy.w0 8 1000 2).
  reflexivity.
Defined.

Lemma train_without_batches_witness :
  fst (train Toy.val_empty Toy.toy_vgg CrossEntropyLoss 0 2 Toy.w0) = Ok (Toy.toy_vgg, 0) /\
  trace (snd (train Toy.val_empty Toy.toy_vgg CrossEntropyLoss 0 2 Toy.w0))
  = trace Toy.w0
    ++ map (fun e => ESavefig experiment_name ("epoch" ++ str (e + 1)) [] []) (seq 0 2)
    ++ [ECheckpoint (experiment_name ++ ".ckpt") (state_dict Toy.toy_vgg)].
Proof.
  apply (@train_without_batches Toy.types Toy.lib3 Toy.val_empty Toy.toy_vgg
           CrossEntropyLoss 0 2 Toy.w0).
  right. reflexivity.
Defined.

Lemma train_epoch_logs_multiples_of_100_witness :
  exists batches evs losses,
    fst (iter_loader Toy.train250 Toy.w0) = Ok batches /\
    trace (snd (train_epoch Toy.train250 CrossEntropyLoss 1 0 (Toy.toy_vgg, 0) Toy.w0))
    = trace Toy.w0 ++ evs
      ++ [ESavefig experiment_name ("epoch" ++ str (0 + 1))
            (map (fun k => 100 * (k + 1)) (seq 0 (length batches / 100))) losses] /\
    length losses = length batches / 100 /\
    length (console evs) = length batches / 100 /\
    length (appended log_file evs) = length batches / 100.
Proof.
  apply (@train_epoch_logs_multiples_of_100 Toy.types Toy.lib3 Toy.train250
           CrossEntropyLoss 1 0 (Toy.toy_vgg, 0)
           (@Build_Model Toy.types 251 (classifier Toy.toy_vgg) true, 250) Toy.w0).
  vm_compute. reflexivity.
Defined.

Lemma train_plots_overwrite_witness :
  exists evs,
    trace (snd (train Toy.val3 Toy.toy_vgg CrossEntropyLoss 0 2 Toy.w0)) = trace Toy.w0 ++ evs /\
    plots evs
    = map (fun e => (experiment_name, ("epoch" ++ str (e + 1))%string)) (seq 0 2).
Proof.
  apply (@train_plots_overwrite Toy.types Toy.lib3 Toy.val3 Toy.toy_vgg CrossEntropyLoss 0 2
           (@Build_Model Toy.types 7 (classifier Toy.toy_vgg) true, 6) Toy.w0).
  reflexivity.
Defined.

Lemma train_epoch_one_step_per_batch_witness :
  exists batches evs,
    fst (iter_loader Toy.val3 Toy.w0) = Ok batches /\
    trace (snd (train_epoch Toy.val3 CrossEntropyLoss 1 0 (Toy.toy_vgg, 0) Toy.w0))
    = trace Toy.w0 ++ evs /\
    length (filter is_forward evs) = length batches /\
    length (filter is_optim_step evs) = length batches /\
    forallb (fun e => match e with EForward _ g => g | _ => true end) evs = true.
Proof.
  apply (@train_epoch_one_step_per_batch Toy.types Toy.lib3 Toy.val3 CrossEntropyLoss 1 0
           (Toy.toy_vgg, 0) (@Build_Model Toy.types 4 (classifier Toy.toy_vgg) true, 3) Toy.w0).
  reflexivity.
Defined.

Lemma narrow_labels_raise_witness :
  train_batch CrossEntropyLoss 0 1 1 0 Toy.narrow_batch
    {| ts_model := Toy.toy_vgg; ts_optimizer := 0; loss_hist := []; step_hist := [] |} Toy.w0
  = (Raise IndexError, Toy.w0) /\
  evaluate_batch Toy.toy_vgg Toy.narrow_batch eval_init Toy.w0 = (Raise IndexError, Toy.w0).
Proof.
  apply (@narrow_labels_raise Toy.types Toy.lib3).
  - discriminate.
  - repeat constructor; simpl; lia.
Defined.

Lemma remap_cov_idempotent_witness :
  ((remap_cov 0 = 0 /\ remap_cov (remap_cov 0) = remap_cov 0) /\
   (remap_cov 1 = 1 /\ remap_cov (remap_cov 1) = remap_cov 1) /\
   (remap_cov (-1) = 0 /\ remap_cov (remap_cov (-1)) = remap_cov (-1)))%Z.
Proof.
  split; [|split].
  - apply (@remap_cov_idempotent 0%Z). right. left. reflexivity.
  - apply (@remap_cov_idempotent 1%Z). right. right. reflexivity.
  - apply (@remap_cov_idempotent (-1)%Z). left. reflexivity.
Defined.

Lemma evaluate_completes_witness :
  fst (evaluate Toy.val3 Toy.toy_vgg Toy.w0) = Ok (eval_mode Toy.toy_vgg).
Proof.
  apply (@evaluate_completes Toy.types Toy.lib3 Toy.val3 Toy.toy_vgg Toy.w0
           (map collate (chunk 1 (dataset Toy.val3)))).
  - reflexivity.
  - discriminate.
  - repeat constructor; eexists; (split; [reflexivity | simpl; lia]).
  - intros b r [<- | [<- | [<- | []]]]; eexists _, _, _, _; split; reflexivity.
  - intros pairs _. reflexivity.
Defined.

Lemma argmax_is_max_witness :
  exists k v,
    2%Z = Z.of_nat k /\ nth_error [3; 1; 7; 7]%Z k = Some v /\
    Forall (fun x => Z.ltb v x = false) [3; 1; 7; 7]%Z.
Proof.
  apply (@argmax_is_max Toy.types Toy.lib3).
  - intros x. apply Z.ltb_irrefl.
  - intros x y z Hxy Hyz. apply Z.ltb_lt in Hxy, Hyz. apply Z.ltb_lt. lia.
  - reflexivity.
Defined.

Lemma evaluate_f1_over_pairs_witness :
  exists batches pairs f1 evs,
    fst (iter_loader Toy.val3 (set_grad false Toy.w0)) = Ok batches /\
    Forall2 (sample_pair (eval_mode Toy.toy_vgg)) batches pairs /\
    f1_score (map fst pairs) (map snd pairs) = Ok f1 /\
    trace (snd (evaluate Toy.val3 Toy.toy_vgg Toy.w0))
    = trace Toy.w0 ++ repeat (EForward false false) (length batches) ++ evs /\
    filter is_forward evs = [] /\
    hd_error (console evs) = Some (f1_line f1).
Proof.
  apply (@evaluate_f1_over_pairs Toy.types Toy.lib3 Toy.val3 Toy.toy_vgg
           (eval_mode Toy.toy_vgg) Toy.w0).
  reflexivity.
Defined.

Lemma load_data_ordered_splits_witness :
  exists train_loader val_loader test_loader,
    load_data 2 Toy.w0 = (Ok (train_loader, val_loader, test_loader), Toy.w0) /\
    dataset train_loader = Toy.toy_celeba Toy.three "train" /\
    shuffle train_loader = true /\
    batch_size train_loader = 2 /\
    batch_size val_loader = 2 /\
    batch_size test_loader = 2 /\
    delivers_in_order val_loader (Toy.toy_celeba Toy.three "valid") /\
    delivers_in_order test_loader (Toy.toy_celeba Toy.three "test").
Proof.
  exact (@load_data_ordered_splits Toy.types Toy.lib3 2 Toy.w0).
Defined.

Lemma train_log_mirrors_console_witness :
  exists evs,
    trace (snd (train Toy.train250 Toy.toy_vgg CrossEntropyLoss 0 1 Toy.w0))
    = trace Toy.w0 ++ evs /\
    appended (experiment_name ++ ".txt") evs = console evs.
Proof.
  apply (@train_log_mirrors_console Toy.types Toy.lib3 Toy.train250 Toy.toy_vgg
           CrossEntropyLoss 0 1
           (@Build_Model Toy.types 251 (classifier Toy.toy_vgg) true, 250) Toy.w0).
  vm_compute. reflexivity.
Defined.

Lemma train_checkpoint_once_witness :
  exists evs epochs_evs,
    trace (snd (train Toy.val3 Toy.toy_vgg CrossEntropyLoss 0 2 Toy.w0)) = trace Toy.w0 ++ evs /\
    fst (train Toy.val3 Toy.toy_vgg CrossEntropyLoss 0 2 Toy.w0)
    = Ok (@Build_Model Toy.types 7 (classifier Toy.toy_vgg) true, 6) /\
    evs = epochs_evs
          ++ [ECheckpoint (experiment_name ++ ".ckpt") (7, classifier Toy.toy_vgg)] /\
    forallb not_checkpoint epochs_evs = true /\
    length (filter is_savefig epochs_evs) = 2 /\
    length (filter is_checkpoint evs) = 1.
Proof.
  destruct (@train_checkpoint_once Toy.types Toy.lib3 Toy.val3 Toy.toy_vgg
              CrossEntropyLoss 0 2 Toy.w0) as (evs & Htr & H).
  cbn in H. destruct H as (Hok & pre & Hevs & Hpre & Hplots & Hone).
  exists evs, pre. repeat split; assumption.
Defined.
